(** * Display layer of the AI Team Orchestrator front end

    A shallow embedding of the view helpers of
    [frontend/src/components/SmartAssetViewer.tsx],
    [frontend/src/components/ProjectTeamSection.tsx] and of the knowledge
    panel ([KnowledgeInsightsArtifact] and its sub-components), together
    with the properties the specification states about them.

    JavaScript values are a tagged union, strings are sequences of UTF-16
    code units, a React render is a tree of elements, and every operation
    that can raise in JavaScript returns a [completion]. *)

From Stdlib Require Import String Ascii Bool ZArith NArith QArith Lia.
From Stdlib Require Import DecimalString.
From Stdlib Require Import List.
Import ListNotations.

Local Close Scope Q_scope.
Local Open Scope nat_scope.

(** ** Strings *)

Module JsString.

(** A JavaScript string: its UTF-16 code units, in order. *)
Definition jsstring := list N.

(** A source literal made of ASCII characters. *)
Definition lit (s : string) : jsstring :=
  map N_of_ascii (list_ascii_of_string s).

(** Decimal form of an integer, as [String(n)] gives it for integers. *)
Definition decimal (z : Z) : jsstring :=
  lit (NilEmpty.string_of_int (Z.to_int z)).

Definition underscore : N := 95.
Definition hyphen : N := 45.
Definition space : N := 32.
Definition dquote : N := 34.
Definition backslash : N := 92.
Definition LF : N := 10.

Definition jsstring_eqb (a b : jsstring) : bool :=
  if list_eq_dec N.eq_dec a b then true else false.

(** [s.substring(start, end)]: both bounds are clamped to the length and
    swapped when out of order. *)
Definition substring (start end_ : nat) (s : jsstring) : jsstring :=
  let a := Nat.min start (length s) in
  let b := Nat.min end_ (length s) in
  firstn (Nat.max a b - Nat.min a b) (skipn (Nat.min a b) s).

(** [parts.join(sep)]. *)
Fixpoint join (sep : jsstring) (parts : list jsstring) : jsstring :=
  match parts with
  | [] => []
  | [p] => p
  | p :: rest => p ++ sep ++ join sep rest
  end.

(** [s.replace(/c/g, d)] for a pattern that is one literal code unit. *)
Definition replace_all (c d : N) (s : jsstring) : jsstring :=
  map (fun u => if N.eqb u c then d else u) s.

Definition is_lower (c : N) : bool := (N.leb 97 c && N.leb c 122)%bool.
Definition is_upper (c : N) : bool := (N.leb 65 c && N.leb c 90)%bool.
Definition is_digit (c : N) : bool := (N.leb 48 c && N.leb c 57)%bool.

(** The class [\w] of a regular expression without the [u] and [i] flags:
    [A-Za-z0-9_]. *)
Definition is_word_char (c : N) : bool :=
  (is_lower c || is_upper c || is_digit c || N.eqb c underscore)%bool.

(** [l.toUpperCase()] for a one-unit string [l] that [\w] matched: only the
    letters [a-z] change. *)
Definition toUpperCase (c : N) : N :=
  if is_lower c then (c - 32)%N else c.

(** [s.replace(/\b\w/g, l => l.toUpperCase())].  The scan goes left to
    right; [prev_is_word] says whether the unit before the current one is a
    word character ([false] at the start of the string).  [\b\w] matches a
    word character that no word character precedes. *)
Fixpoint capitalize_from (prev_is_word : bool) (s : jsstring) : jsstring :=
  match s with
  | [] => []
  | c :: rest =>
      (if (is_word_char c && negb prev_is_word)%bool then toUpperCase c else c)
        :: capitalize_from (is_word_char c) rest
  end.

Definition capitalize_words (s : jsstring) : jsstring := capitalize_from false s.

End JsString.
Import JsString.

(** ** Values *)

(** A number: IEEE double, by its exact rational value when it is finite. *)
Inductive jsnumber : Type :=
| NaN
| Infinity (negative : bool)
| Finite (q : Q).

#[warnings="-register-all"]
Inductive jsvalue : Type :=
| VUndefined
| VNull
| VBoolean (b : bool)
| VNumber (n : jsnumber)
| VString (s : jsstring)
| VBigInt (z : Z)
| VSymbol (description : option jsstring)
| VFunction (source : jsstring)
| VArray (items : list jsvalue)
| VObject (entries : list (jsstring * jsvalue)).

(** [VObject entries] is an ordinary object given by [Object.entries] of it:
    its own enumerable string-keyed properties in enumeration order. *)

Inductive jstype : Type :=
| TUndefined | TObject | TBoolean | TNumber | TString | TBigint | TSymbol | TFunction.

Definition jstype_eqb (a b : jstype) : bool :=
  match a, b with
  | TUndefined, TUndefined | TObject, TObject | TBoolean, TBoolean
  | TNumber, TNumber | TString, TString | TBigint, TBigint
  | TSymbol, TSymbol | TFunction, TFunction => true
  | _, _ => false
  end.

(** The [typeof] operator; [typeof null] is ["object"]. *)
Definition typeof (value : jsvalue) : jstype :=
  match value with
  | VUndefined => TUndefined
  | VNull => TObject
  | VBoolean _ => TBoolean
  | VNumber _ => TNumber
  | VString _ => TString
  | VBigInt _ => TBigint
  | VSymbol _ => TSymbol
  | VFunction _ => TFunction
  | VArray _ => TObject
  | VObject _ => TObject
  end.

Definition is_null (value : jsvalue) : bool :=
  match value with VNull => true | _ => false end.

Definition is_undefined (value : jsvalue) : bool :=
  match value with VUndefined => true | _ => false end.

Definition Array_isArray (value : jsvalue) : bool :=
  match value with VArray _ => true | _ => false end.

Definition number_is_zero (n : jsnumber) : bool :=
  match n with
  | Finite q => Qeq_bool q 0
  | _ => false
  end.

(** [ToBoolean]: the falsy values are [undefined], [null], [false], [0],
    [NaN], [0n] and the empty string. *)
Definition ToBoolean (value : jsvalue) : bool :=
  match value with
  | VUndefined | VNull => false
  | VBoolean b => b
  | VNumber NaN => false
  | VNumber n => negb (number_is_zero n)
  | VString s => negb (Nat.eqb (length s) 0)
  | VBigInt z => negb (Z.eqb z 0)
  | VSymbol _ | VFunction _ | VArray _ | VObject _ => true
  end.

(** ** Completions *)

Inductive jserror : Type := TypeError | RangeError.

Inductive completion (A : Type) : Type :=
| Normal (a : A)
| Throw (e : jserror).

Arguments Normal {A} a.
Arguments Throw {A} e.

Definition bind {A B : Type} (c : completion A) (k : A -> completion B)
  : completion B :=
  match c with
  | Normal a => k a
  | Throw e => Throw e
  end.

Notation "x <- c ;; k" := (bind c (fun x => k))
  (at level 61, c at next level, right associativity).

(** [try { body } catch { handler }]. *)
Definition try_catch {A : Type} (body handler : completion A) : completion A :=
  match body with
  | Normal a => Normal a
  | Throw _ => handler
  end.

(** [l.map((x, index) => f index x)] when [f] can raise; [index] is the
    position of the head of [l]. *)
Fixpoint map_indexed {A B : Type} (f : nat -> A -> completion B)
  (index : nat) (l : list A) : completion (list B) :=
  match l with
  | [] => Normal []
  | x :: rest =>
      y <- f index x ;;
      ys <- map_indexed f (S index) rest ;;
      Normal (y :: ys)
  end.

(** [l.slice(start, end)] for indices that are not negative. *)
Definition Array_slice {A : Type} (start end_ : nat) (l : list A) : list A :=
  firstn (end_ - start) (skipn start l).

(** ** Render trees *)

Inductive rkey : Type :=
| NoKey
| IndexKey (index : nat)
| NameKey (name : jsstring).

(** What a component returns: text and number children, the [false] and
    [undefined] that React skips, arrays of children, and elements. *)
#[warnings="-register-all"]
Inductive rnode : Type :=
| RText (s : jsstring)
| RNum (n : Z)
| RFalse
| RUndefined
| RList (items : list rnode)
| RElem (tag className : string) (key : rkey) (children : list rnode).

Definition el (tag className : string) (children : list rnode) : rnode :=
  RElem tag className NoKey children.

(** The text a render tree shows (the [textContent] of its DOM). *)
Fixpoint text_of (r : rnode) : jsstring :=
  match r with
  | RText s => s
  | RNum n => decimal n
  | RFalse | RUndefined => []
  | RList items => flat_map text_of items
  | RElem _ _ _ children => flat_map text_of children
  end.

(** ** The structured-value renderer *)

Section Renderer.

(** [Number::toString], the decimal form of a double, is the language's. *)
Variable Number_toString : jsnumber -> jsstring.

(** [ToString(value)].  A symbol has no implicit conversion; an array joins
    the conversions of its items, with nothing for [null] and [undefined];
    an ordinary object goes through [Object.prototype.toString], a function
    through its source text. *)
Fixpoint ToString (value : jsvalue) : completion jsstring :=
  match value with
  | VUndefined => Normal (lit "undefined")
  | VNull => Normal (lit "null")
  | VBoolean b => Normal (if b then lit "true" else lit "false")
  | VNumber n => Normal (Number_toString n)
  | VString s => Normal s
  | VBigInt z => Normal (decimal z)
  | VSymbol _ => Throw TypeError
  | VFunction source => Normal source
  | VArray items =>
      parts <-
        (fix elements (l : list jsvalue) : completion (list jsstring) :=
           match l with
           | [] => Normal []
           | item :: rest =>
               part <- (if (is_null item || is_undefined item)%bool
                        then Normal []
                        else ToString item) ;;
               others <- elements rest ;;
               Normal (part :: others)
           end) items ;;
      Normal (join (lit ",") parts)
  | VObject _ => Normal (lit "[object Object]")
  end.

(** [String(value)]: [ToString], but a symbol gives its descriptive
    string. *)
Definition String_ (value : jsvalue) : completion jsstring :=
  match value with
  | VSymbol None => Normal (lit "Symbol()")
  | VSymbol (Some d) => Normal (lit "Symbol(" ++ d ++ lit ")")
  | _ => ToString value
  end.

(** The label of a key: [key.replace(/_/g, ' ').replace(/\b\w/g, l => l.toUpperCase())]. *)
Definition humanize_key (key : jsstring) : jsstring :=
  capitalize_words (replace_all underscore space key).

(** The box around the item at position [index] of a list. *)
Definition item_box (index : nat) (child : rnode) : rnode :=
  RElem "div" "bg-gray-50 rounded p-2 text-sm" (IndexKey index)
    [ el "div" "text-xs text-gray-500 mb-1"
        [RText (lit "Item "); RNum (Z.of_nat index + 1)];
      child ].

(** The box around one entry of a mapping. *)
Definition entry_box (key : jsstring) (child : rnode) : rnode :=
  RElem "div" "bg-gray-50 rounded p-2" (NameKey key)
    [ el "div" "text-xs font-medium text-gray-600 mb-1"
        [RText (humanize_key key)];
      el "div" "text-sm" [child] ].

(** [cond && node] as a child. *)
Definition and_then (cond : bool) (node : rnode) : rnode :=
  if cond then node else RFalse.

Definition more_items (n : Z) : rnode :=
  el "div" "text-xs text-gray-500 text-center"
    [RText (lit "+ "); RNum (n - 5); RText (lit " more items")].

Definition more_properties (n : Z) : rnode :=
  el "div" "text-xs text-gray-500 text-center"
    [RText (lit "+ "); RNum (n - 3); RText (lit " more properties")].

(** The component [SmartValueRenderer].  The tests are those of the source,
    in its order; a member read on a value that has no such member raises
    [TypeError], as do [Object.entries] of [null] and a conversion to
    string that the language refuses.  The two local loops
    are [value.slice(0, 5).map(...)] and [entries.slice(0, 3).map(...)]:
    [count] is what is left of the slice, [index] the position. *)
Fixpoint SmartValueRenderer (value : jsvalue) : completion rnode :=
  if (is_null value || is_undefined value)%bool then
    Normal (el "span" "text-gray-400 italic" [RText (lit "null")])
  else if jstype_eqb (typeof value) TString then
    match value with
    | VString s =>
        if 200 <? length s then
          Normal (el "div" ""
            [ el "div" "mb-2" [RText (substring 0 200 s); RText (lit "...")];
              el "div" "text-xs text-gray-500"
                [ RText (lit "("); RNum (Z.of_nat (length s));
                  RText (lit " characters total)") ] ])
        else Normal (el "span" "" [RText s])
    | _ => Throw TypeError
    end
  else if (jstype_eqb (typeof value) TNumber
           || jstype_eqb (typeof value) TBoolean)%bool then
    text <- String_ value ;;
    Normal (el "span" "font-medium" [RText text])
  else if Array_isArray value then
    match value with
    | VArray items =>
        if length items =? 0 then
          Normal (el "span" "text-gray-400 italic" [RText (lit "Empty list")])
        else
          boxes <-
            (fix slice_map (count index : nat) (l : list jsvalue) {struct l}
               : completion (list rnode) :=
               match count, l with
               | S count', item :: rest =>
                   child <- SmartValueRenderer item ;;
                   others <- slice_map count' (S index) rest ;;
                   Normal (item_box index child :: others)
               | _, _ => Normal []
               end) 5 0 items ;;
          Normal (el "div" ""
            [ el "div" "font-medium text-sm mb-2"
                [RNum (Z.of_nat (length items)); RText (lit " items:")];
              el "div" "space-y-2 max-h-48 overflow-y-auto"
                [ RList boxes;
                  and_then (5 <? length items)
                    (more_items (Z.of_nat (length items))) ] ])
    | _ => Throw TypeError
    end
  else if jstype_eqb (typeof value) TObject then
    match value with
    | VObject entries =>
        if length entries =? 0 then
          Normal (el "span" "text-gray-400 italic" [RText (lit "Empty object")])
        else
          boxes <-
            (fix slice_map (count : nat) (l : list (jsstring * jsvalue))
               {struct l} : completion (list rnode) :=
               match count, l with
               | S count', (key, val) :: rest =>
                   child <- SmartValueRenderer val ;;
                   others <- slice_map count' rest ;;
                   Normal (entry_box key child :: others)
               | _, _ => Normal []
               end) 3 entries ;;
          Normal (el "div" "space-y-2"
            [ RList boxes;
              and_then (3 <? length entries)
                (more_properties (Z.of_nat (length entries))) ])
    | _ => Throw TypeError
    end
  else
    text <- String_ value ;;
    Normal (el "span" "" [RText text]).

End Renderer.

(** The two loops of the renderer, for any renderer [f] of the parts. *)
Section Loops.

Variable f : jsvalue -> completion rnode.

(** The loop over the first [count] items of a list, for any renderer [f]
    of the items. *)
Fixpoint render_items (count index : nat) (l : list jsvalue) {struct l}
  : completion (list rnode) :=
  match count, l with
  | S count', item :: rest =>
      child <- f item ;;
      others <- render_items count' (S index) rest ;;
      Normal (item_box index child :: others)
  | _, _ => Normal []
  end.

(** The loop over the first [count] entries of a mapping. *)
Fixpoint render_entries (count : nat) (l : list (jsstring * jsvalue))
  {struct l} : completion (list rnode) :=
  match count, l with
  | S count', (key, val) :: rest =>
      child <- f val ;;
      others <- render_entries count' rest ;;
      Normal (entry_box key child :: others)
  | _, _ => Normal []
  end.

End Loops.

(** ** Humanized labels *)



(** ** The asset viewer *)

(** The entries of an array: its items under their indices as keys. *)
Fixpoint index_entries (index : nat) (items : list jsvalue)
  : list (jsstring * jsvalue) :=
  match items with
  | [] => []
  | item :: rest =>
      (decimal (Z.of_nat index), item) :: index_entries (S index) rest
  end.

(** [Object.entries(value)].  It raises on [null] and [undefined]; an array
    and a string are seen through their indices; the other primitives and
    functions have no enumerable property of their own here. *)
Definition Object_entries (value : jsvalue)
  : completion (list (jsstring * jsvalue)) :=
  match value with
  | VUndefined | VNull => Throw TypeError
  | VObject entries => Normal entries
  | VArray items => Normal (index_entries 0 items)
  | VString s => Normal (index_entries 0 (map (fun c => VString [c]) s))
  | VBoolean _ | VNumber _ | VBigInt _ | VSymbol _ | VFunction _ => Normal []
  end.

(** The clipboard and the light bulb of the headings, as UTF-16. *)
Definition clipboard_emoji : jsstring := [55357; 56523]%N.
Definition bulb_emoji : jsstring := [55357; 56481]%N.

(** [l.map(f)] when [f] can raise. *)
Fixpoint map_completion {A B : Type} (f : A -> completion B) (l : list A)
  : completion (list B) :=
  match l with
  | [] => Normal []
  | x :: rest =>
      y <- f x ;;
      ys <- map_completion f rest ;;
      Normal (y :: ys)
  end.

(** The three views of the viewer, [activeView]. *)
Inductive view : Type := visual | data | usage.

Definition view_eqb (a b : view) : bool :=
  match a, b with
  | visual, visual | data, data | usage, usage => true
  | _, _ => false
  end.




Definition no_data_placeholder : rnode :=
  el "div" "text-gray-500" [RText (lit "No data available for this asset")].

(** One field of the visual view. *)
Definition field_box (key : jsstring) (child : rnode) : rnode :=
  RElem "div" "bg-white rounded-lg p-4 border border-blue-100" (NameKey key)
    [ el "div" "font-medium text-blue-700 mb-2"
        [RText (capitalize_words (replace_all underscore space key))];
      el "div" "text-gray-700" [child] ].

Definition deliverable_content (fields : list rnode) : rnode :=
  el "div" "space-y-4"
    [ el "div" "bg-blue-50 rounded-lg p-4 border border-blue-200"
        [ el "h4" "font-semibold text-blue-800 mb-3"
            [RText (clipboard_emoji ++ lit " Deliverable Content")];
          el "div" "space-y-3 max-h-96 overflow-y-auto" [RList fields] ] ].

Definition instructions : list jsstring :=
  [ lit "Review the deliverable content in the Visual View tab";
    lit "Adapt the content to fit your specific business context";
    lit "Implement the recommendations systematically";
    lit "Download the asset for integration with your existing tools";
    lit "Monitor results and request refinements if needed" ].

Fixpoint instruction_items (index : nat) (l : list jsstring) : list rnode :=
  match l with
  | [] => []
  | instruction :: rest =>
      RElem "li" "flex items-start" (IndexKey index)
        [ el "div"
            "bg-blue-500 text-white rounded-full w-6 h-6 flex items-center justify-center text-sm font-bold mr-3 mt-0.5 flex-shrink-0"
            [RNum (Z.of_nat index + 1)];
          el "span" "text-blue-900" [RText instruction] ]
        :: instruction_items (S index) rest
  end.

Definition renderUsageInstructions : rnode :=
  el "div" "bg-blue-50 rounded-lg p-4 border border-blue-200"
    [ el "h4" "font-semibold text-blue-800 mb-3"
        [RText (bulb_emoji ++ lit " How to Use This Deliverable")];
      el "ol" "space-y-2" [RList (instruction_items 0 instructions)] ].

(** *** [JSON.stringify] *)

Definition hex_digit (n : N) : N :=
  if N.ltb n 10 then (48 + n)%N else (87 + n)%N.

(** [UnicodeEscape]: a backslash, [u] and four lower-case hex digits. *)
Definition UnicodeEscape (c : N) : jsstring :=
  [ backslash; 117%N;
    hex_digit (N.modulo (N.div c 4096) 16); hex_digit (N.modulo (N.div c 256) 16);
    hex_digit (N.modulo (N.div c 16) 16); hex_digit (N.modulo c 16) ].

Definition is_leading_surrogate (c : N) : bool :=
  (N.leb 55296 c && N.leb c 56319)%bool.
Definition is_trailing_surrogate (c : N) : bool :=
  (N.leb 56320 c && N.leb c 57343)%bool.

(** The escape of one code unit that is not part of a surrogate pair. *)
Definition quote_unit (c : N) : jsstring :=
  if N.eqb c 8 then [backslash; 98]%N
  else if N.eqb c 9 then [backslash; 116]%N
  else if N.eqb c 10 then [backslash; 110]%N
  else if N.eqb c 12 then [backslash; 102]%N
  else if N.eqb c 13 then [backslash; 114]%N
  else if N.eqb c dquote then [backslash; dquote]
  else if N.eqb c backslash then [backslash; backslash]
  else if (N.ltb c 32 || is_leading_surrogate c || is_trailing_surrogate c)%bool
       then UnicodeEscape c
  else [c].

Fixpoint quote_units (s : jsstring) : jsstring :=
  match s with
  | [] => []
  | c :: rest =>
      match rest with
      | d :: rest' =>
          if (is_leading_surrogate c && is_trailing_surrogate d)%bool
          then c :: d :: quote_units rest'
          else quote_unit c ++ quote_units rest
      | [] => quote_unit c
      end
  end.

(** [QuoteJSONString]. *)
Definition QuoteJSONString (s : jsstring) : jsstring :=
  [dquote] ++ quote_units s ++ [dquote].

Section Viewer.

Variable Number_toString : jsnumber -> jsstring.

(** [SerializeJSONProperty] for a value without [toJSON]: [None] is the
    [undefined] that drops a property and that an array writes as [null];
    a bigint raises. [gap] is the indentation unit, [indent] the current
    indentation. *)
Fixpoint SerializeJSONProperty (gap indent : jsstring) (value : jsvalue)
  {struct value} : completion (option jsstring) :=
  match value with
  | VNull => Normal (Some (lit "null"))
  | VBoolean b => Normal (Some (if b then lit "true" else lit "false"))
  | VString s => Normal (Some (QuoteJSONString s))
  | VNumber (Finite q) => Normal (Some (Number_toString (Finite q)))
  | VNumber _ => Normal (Some (lit "null"))
  | VBigInt _ => Throw TypeError
  | VUndefined | VSymbol _ | VFunction _ => Normal None
  | VArray items =>
      let stepback := indent in
      let indent := indent ++ gap in
      partial <-
        (fix elements (l : list jsvalue) : completion (list jsstring) :=
           match l with
           | [] => Normal []
           | item :: rest =>
               strP <- SerializeJSONProperty gap indent item ;;
               others <- elements rest ;;
               Normal (match strP with
                       | Some str => str
                       | None => lit "null"
                       end :: others)
           end) items ;;
      Normal (Some
        match partial with
        | [] => lit "[]"
        | _ =>
            if length gap =? 0 then lit "[" ++ join (lit ",") partial ++ lit "]"
            else
              lit "[" ++ [LF] ++ indent
                ++ join (lit "," ++ [LF] ++ indent) partial
                ++ [LF] ++ stepback ++ lit "]"
        end)
  | VObject entries =>
      let stepback := indent in
      let indent := indent ++ gap in
      partial <-
        (fix members (l : list (jsstring * jsvalue))
           : completion (list jsstring) :=
           match l with
           | [] => Normal []
           | (key, val) :: rest =>
               strP <- SerializeJSONProperty gap indent val ;;
               others <- members rest ;;
               Normal (match strP with
                       | Some str =>
                           (QuoteJSONString key ++ lit ":"
                              ++ (if length gap =? 0 then [] else [space])
                              ++ str) :: others
                       | None => others
                       end)
           end) entries ;;
      Normal (Some
        match partial with
        | [] => lit "{}"
        | _ =>
            if length gap =? 0 then lit "{" ++ join (lit ",") partial ++ lit "}"
            else
              lit "{" ++ [LF] ++ indent
                ++ join (lit "," ++ [LF] ++ indent) partial
                ++ [LF] ++ stepback ++ lit "}"
        end)
  end.

(** [JSON.stringify(value, null, space)] for a number [space]: the gap is
    that many spaces, ten at most. *)
Definition JSON_stringify (value : jsvalue) (space_count : nat)
  : completion (option jsstring) :=
  SerializeJSONProperty (repeat space (Nat.min space_count 10)) [] value.

(** [renderAssetContent], on [asset.asset_data]. *)
Definition renderAssetContent (asset_data : jsvalue) : completion rnode :=
  let data := asset_data in
  if (negb (ToBoolean data) || negb (jstype_eqb (typeof data) TObject))%bool then
    Normal no_data_placeholder
  else
    entries <- Object_entries data ;;
    fields <-
      map_completion
        (fun kv =>
           child <- SmartValueRenderer Number_toString (snd kv) ;;
           Normal (field_box (fst kv) child))
        entries ;;
    Normal (deliverable_content fields).

(** The raw-data panel. *)
Definition raw_data_panel (asset_data : jsvalue) : completion rnode :=
  json <- JSON_stringify asset_data 2 ;;
  Normal (el "div" "bg-gray-900 rounded-lg p-4 overflow-auto"
    [ el "h3" "text-white font-medium mb-3" [RText (lit "Raw Asset Data")];
      el "pre" "text-green-400 text-sm overflow-auto max-h-96"
        [ match json with
          | Some text => RText text
          | None => RUndefined
          end ] ]).

(** The content area of [SmartAssetViewer]: its three guarded children. *)
Definition SmartAssetViewer_content (activeView : view) (asset_data : jsvalue)
  : completion rnode :=
  visual_child <-
    (if view_eqb activeView visual then renderAssetContent asset_data
     else Normal RFalse) ;;
  usage_child <-
    (if view_eqb activeView usage then Normal renderUsageInstructions
     else Normal RFalse) ;;
  data_child <-
    (if view_eqb activeView data then raw_data_panel asset_data
     else Normal RFalse) ;;
  Normal (el "div" "p-6 overflow-y-auto max-h-[60vh]"
    [visual_child; usage_child; data_child]).

End Viewer.

(** ** The team section *)




(** ** The knowledge panel *)

(** *** Confidence colours *)

(** [a >= b] on numbers: false as soon as one side is [NaN]. *)
Definition js_ge (a b : jsnumber) : bool :=
  match a, b with
  | NaN, _ | _, NaN => false
  | Infinity false, _ => true
  | _, Infinity true => true
  | Infinity true, _ => false
  | Finite _, Infinity false => false
  | Finite p, Finite q => Qle_bool q p
  end.

(** [a < b] on numbers. *)
Definition js_lt (a b : jsnumber) : bool :=
  match a, b with
  | NaN, _ | _, NaN => false
  | _, Infinity true => false
  | Infinity true, _ => true
  | Infinity false, _ => false
  | Finite _, Infinity false => true
  | Finite p, Finite q => negb (Qle_bool q p)
  end.

(** [a <= b] on numbers. *)
Definition js_le (a b : jsnumber) : bool := js_ge b a.

(** The literals [0.8] and [0.6]: the doubles nearest to them. *)
Definition number_0_8 : jsnumber :=
  Finite (3602879701896397 # 4503599627370496).
Definition number_0_6 : jsnumber :=
  Finite (5404319552844595 # 9007199254740992).
(** The double nearest to [0.59999]. *)
Definition number_0_59999 : jsnumber :=
  Finite (337764342553253 # 562949953421312).

Definition green_pair : jsstring := lit "text-green-600 bg-green-100".
Definition yellow_pair : jsstring := lit "text-yellow-600 bg-yellow-100".
Definition red_pair : jsstring := lit "text-red-600 bg-red-100".

(** [getConfidenceColor] of [KnowledgeInsightsArtifact]. *)
Definition getConfidenceColor (confidence : jsnumber) : jsstring :=
  if js_ge confidence number_0_8 then green_pair
  else if js_ge confidence number_0_6 then yellow_pair
  else red_pair.

(** [getConfidenceColor] of [InsightSection], the same lines again. *)
Definition InsightSection_getConfidenceColor (confidence : jsnumber) : jsstring :=
  if js_ge confidence number_0_8 then green_pair
  else if js_ge confidence number_0_6 then yellow_pair
  else red_pair.

(** The rank of a colour pairing: red below yellow below green. *)
Definition tier_rank (pair : jsstring) : nat :=
  if jsstring_eqb pair green_pair then 2
  else if jsstring_eqb pair yellow_pair then 1
  else 0.

(** *** Dates *)

Section Dates.

(** What the engine reads in a date string: a time in milliseconds, or
    nothing ([NaN]).  Outside the ISO format the reading is the engine's. *)
Variable Date_parse : jsstring -> option Z.

(** The [en-US] text of a valid time for the options of [formatDate]
    (short month, numeric day, two-digit hour and minute). *)
Variable format_en_US : Z -> jsstring.

(** [TimeClip]: a time beyond 8.64e15 ms is no time. *)
Definition TimeClip (t : option Z) : option Z :=
  match t with
  | Some z => if Z.leb (Z.abs z) 8640000000000000 then Some z else None
  | None => None
  end.

(** [new Date(dateString)], by its time value. *)
Definition Date_new (dateString : jsstring) : option Z :=
  TimeClip (Date_parse dateString).

(** [date.toLocaleDateString('en-US', options)] for valid options: on an
    invalid date the method returns the text [Invalid Date]; it does not
    raise. *)
Definition toLocaleDateString (date : option Z) : completion jsstring :=
  match date with
  | None => Normal (lit "Invalid Date")
  | Some t => Normal (format_en_US t)
  end.

(** [formatDate]. *)
Definition formatDate (dateString : jsstring) : completion jsstring :=
  try_catch
    (toLocaleDateString (Date_new dateString))
    (Normal (lit "Unknown")).

End Dates.

(** *** Sections and management mode *)

Inductive section : Type := Insights | Practices | Learnings | Summary | Manage.

Definition section_eqb (a b : section) : bool :=
  match a, b with
  | Insights, Insights | Practices, Practices | Learnings, Learnings
  | Summary, Summary | Manage, Manage => true
  | _, _ => false
  end.

(** The two [useState] cells of [KnowledgeInsightsArtifact]. *)
Record panel_state : Type := {
  activeSection : section;
  managementMode : bool
}.

Definition initial_panel_state : panel_state :=
  {| activeSection := Insights; managementMode := false |}.

(** What a click handler of the panel does: it calls one of the setters
    with a value fixed when the panel was rendered. *)
Inductive panel_action : Type :=
| setActiveSection (s : section)
| setManagementMode (b : bool).

Definition dispatch (st : panel_state) (a : panel_action) : panel_state :=
  match a with
  | setActiveSection s =>
      {| activeSection := s; managementMode := managementMode st |}
  | setManagementMode b =>
      {| activeSection := activeSection st; managementMode := b |}
  end.

(** The props of the panel that the tabs read. *)
Record knowledge_data : Type := {
  insights : list jsvalue;
  bestPractices : list jsvalue;
  learnings : list jsvalue;
  summary : jsvalue
}.

(** The props of one [SectionTab]. *)
Record section_tab : Type := {
  tab_label : string;
  tab_active : bool;
  tab_onClick : panel_action;
  tab_count : option nat
}.

(** The part of the panel under its header: the management sub-tree, or the
    tabs with the content children, one per guarded section ([None] is the
    [false] of a guard that fails). *)
Inductive panel_body : Type :=
| ManagementTree
| KnowledgeView (tabs : list section_tab) (content : list (option section)).

Record panel_view : Type := {
  toggle_variant : string;
  toggle_label : string;
  toggle_onClick : panel_action;
  body : panel_body
}.

Definition guarded (active shown : section) : option section :=
  if section_eqb active shown then Some shown else None.

(** The render of [KnowledgeInsightsArtifact]. *)
Definition KnowledgeInsightsArtifact (knowledgeData : knowledge_data)
  (st : panel_state) : panel_view :=
  {| toggle_variant := if managementMode st then "default" else "outline";
     toggle_label :=
       if managementMode st then "Exit Management" else "Manage Insights";
     toggle_onClick := setManagementMode (negb (managementMode st));
     body :=
       if managementMode st then ManagementTree
       else
         KnowledgeView
           [ {| tab_label := "Insights";
                tab_active := section_eqb (activeSection st) Insights;
                tab_onClick := setActiveSection Insights;
                tab_count := Some (length (insights knowledgeData)) |};
             {| tab_label := "Best Practices";
                tab_active := section_eqb (activeSection st) Practices;
                tab_onClick := setActiveSection Practices;
                tab_count := Some (length (bestPractices knowledgeData)) |};
             {| tab_label := "Learnings";
                tab_active := section_eqb (activeSection st) Learnings;
                tab_onClick := setActiveSection Learnings;
                tab_count := Some (length (learnings knowledgeData)) |};
             {| tab_label := "Summary";
                tab_active := section_eqb (activeSection st) Summary;
                tab_onClick := setActiveSection Summary;
                tab_count := None |} ]
           [ guarded (activeSection st) Insights;
             guarded (activeSection st) Practices;
             guarded (activeSection st) Learnings;
             guarded (activeSection st) Summary ] |}.

(** What the user can do on the panel. *)
Inductive panel_event : Type :=
| ClickManagementToggle
| ClickTab (position : nat)
| ClickRefresh.


(** One event on the panel as rendered in state [st]: the handler that runs
    is the one of that render.  A tab that is not on screen cannot be
    clicked, and the refresh button calls the parent only. *)
Definition panel_step (knowledgeData : knowledge_data) (st : panel_state)
  (ev : panel_event) : panel_state :=
  let rendered := KnowledgeInsightsArtifact knowledgeData st in
  match ev with
  | ClickManagementToggle => dispatch st (toggle_onClick rendered)
  | ClickTab position =>
      match body rendered with
      | ManagementTree => st
      | KnowledgeView tabs _ =>
          match nth_error tabs position with
          | Some tab => dispatch st (tab_onClick tab)
          | None => st
          end
      end
  | ClickRefresh => st
  end.

Definition panel_run (knowledgeData : knowledge_data) (st : panel_state)
  (events : list panel_event) : panel_state :=
  fold_left (panel_step knowledgeData) events st.

(** ** Sample instance *)

(** An instance of [Number::toString] to run the renderer on examples: it
    is exact on [NaN], on the infinities and on the integers below [1e21],
    whose digits need no rounding; other numbers are written as a
    quotient, in place of their shortest decimal. *)
Definition sample_Number_toString (n : jsnumber) : jsstring :=
  match n with
  | NaN => lit "NaN"
  | Infinity negative => if negative then lit "-Infinity" else lit "Infinity"
  | Finite q =>
      let r := Qred q in
      if (Pos.eqb (Qden r) 1 && Z.ltb (Z.abs (Qnum r)) (10 ^ 21))%bool
      then decimal (Qnum r)
      else decimal (Qnum r) ++ lit "/" ++ decimal (Zpos (Qden r))
  end.

Definition seven_items : list jsvalue :=
  [ VString (lit "a"); VNull; VBoolean true; VArray []; VObject [];
    VNumber (Finite (inject_Z 6)); VString (lit "g") ].


(** The scenario of the specification:
    [asset_data = { executive_summary: 'Short text' }]. *)
Definition executive_summary_data : jsvalue :=
  VObject [ (lit "executive_summary", VString (lit "Short text")) ].


Definition digit_value (c : N) : option Z :=
  if is_digit c then Some (Z.of_N c - 48)%Z else None.

(** Days from 1970-01-01 to a date of the proleptic Gregorian calendar. *)
Definition days_from_civil (y m d : Z) : Z :=
  let y' := (if Z.leb m 2 then y - 1 else y)%Z in
  let era := (y' / 400)%Z in
  let yoe := (y' - era * 400)%Z in
  let doy := ((153 * (if Z.ltb 2 m then m - 3 else m + 9) + 2) / 5 + d - 1)%Z in
  let doe := (yoe * 365 + yoe / 4 - yoe / 100 + doy)%Z in
  (era * 146097 + doe - 719468)%Z.

(** An instance of the date reading for examples: it reads the date-only
    ISO form [YYYY-MM-DD] as midnight UTC and nothing else. *)
Definition sample_Date_parse (s : jsstring) : option Z :=
  match map digit_value s with
  | [Some y1; Some y2; Some y3; Some y4; None;
     Some m1; Some m2; None; Some d1; Some d2] =>
      let y := (y1 * 1000 + y2 * 100 + y3 * 10 + y4)%Z in
      let m := (m1 * 10 + m2)%Z in
      let d := (d1 * 10 + d2)%Z in
      if (N.eqb (nth 4 s 0%N) hyphen && N.eqb (nth 7 s 0%N) hyphen
          && Z.leb 1 m && Z.leb m 12 && Z.leb 1 d && Z.leb d 31)%bool
      then Some (days_from_civil y m d * 86400000)%Z
      else None
  | _ => None
  end.

(** A stand-in for the [en-US] text of a valid time: its milliseconds. *)
Definition sample_format_en_US (t : Z) : jsstring := decimal t.


From Stdlib Require Import Permutation Sorted.

(** ** The team section: grouping by role *)

(** The fields of an agent that the grouping reads. *)
Record Agent : Type := {
  agent_id : jsstring;
  agent_name : jsstring;
  agent_role : jsstring
}.

(** The names that every object literal inherits from [Object.prototype]. *)
Definition Object_prototype_keys : list jsstring :=
  [ lit "constructor"; lit "__defineGetter__"; lit "__defineSetter__";
    lit "hasOwnProperty"; lit "__lookupGetter__"; lit "__lookupSetter__";
    lit "isPrototypeOf"; lit "propertyIsEnumerable"; lit "toString";
    lit "valueOf"; lit "__proto__"; lit "toLocaleString" ].

(** The own properties of an object, in the order of their creation. *)
Fixpoint own_property {A : Type} (props : list (jsstring * A)) (key : jsstring)
  : option A :=
  match props with
  | [] => None
  | (k, v) :: rest =>
      if jsstring_eqb k key then Some v else own_property rest key
  end.

(** [obj[key] = v]: an existing property keeps its place. *)
Fixpoint set_property {A : Type} (props : list (jsstring * A)) (key : jsstring)
  (v : A) : list (jsstring * A) :=
  match props with
  | [] => [(key, v)]
  | (k, w) :: rest =>
      if jsstring_eqb k key then (k, v) :: rest
      else (k, w) :: set_property rest key v
  end.

(** What [roleGroups[role]] finds: an array of the object's own, a member
    of [Object.prototype], or nothing ([undefined]). *)
Inductive role_slot : Type :=
| OwnArray (group : list Agent)
| InheritedMember
| NoProperty.

Definition roleGroups_get (roleGroups : list (jsstring * list Agent))
  (role : jsstring) : role_slot :=
  match own_property roleGroups role with
  | Some group => OwnArray group
  | None =>
      if existsb (jsstring_eqb role) Object_prototype_keys
      then InheritedMember else NoProperty
  end.

(** Arrays and the members of [Object.prototype] are truthy. *)
Definition slot_truthy (slot : role_slot) : bool :=
  match slot with
  | NoProperty => false
  | OwnArray _ | InheritedMember => true
  end.

(** The callback of [agents.forEach]: [push] adds to an own array in place
    and is no function of an inherited member. *)
Definition group_agent (roleGroups : list (jsstring * list Agent))
  (agent : Agent) : completion (list (jsstring * list Agent)) :=
  let role := agent_role agent in
  let roleGroups :=
    if negb (slot_truthy (roleGroups_get roleGroups role))
    then set_property roleGroups role []
    else roleGroups in
  match roleGroups_get roleGroups role with
  | OwnArray group => Normal (set_property roleGroups role (group ++ [agent]))
  | InheritedMember | NoProperty => Throw TypeError
  end.

Fixpoint forEach_group (roleGroups : list (jsstring * list Agent))
  (agents : list Agent) : completion (list (jsstring * list Agent)) :=
  match agents with
  | [] => Normal roleGroups
  | agent :: rest =>
      roleGroups' <- group_agent roleGroups agent ;;
      forEach_group roleGroups' rest
  end.

(** [agentsByRole]: the groups as own properties in creation order. *)
Definition agentsByRole (agents : list Agent)
  : completion (list (jsstring * list Agent)) :=
  forEach_group [] agents.

(** The value of a string of decimal digits. *)
Fixpoint digits_value (acc : N) (s : jsstring) : option N :=
  match s with
  | [] => Some acc
  | c :: rest =>
      if is_digit c then digits_value (acc * 10 + (c - 48))%N rest else None
  end.

(** An array index: the canonical decimal form of a number below
    [2^32 - 1]. *)
Definition array_index (key : jsstring) : option N :=
  match key with
  | [] => None
  | _ =>
      match digits_value 0 key with
      | Some n =>
          if (jsstring_eqb key (decimal (Z.of_N n)) && N.ltb n 4294967295)%bool
          then Some n else None
      | None => None
      end
  end.

Fixpoint insert_by_index {A : Type} (n : N) (e : A) (sorted : list (N * A))
  : list (N * A) :=
  match sorted with
  | [] => [(n, e)]
  | (m, f) :: rest =>
      if N.leb n m then (n, e) :: (m, f) :: rest
      else (m, f) :: insert_by_index n e rest
  end.

(** The properties whose key is an array index, by ascending index. *)
Fixpoint index_properties {A : Type} (props : list (jsstring * A))
  : list (N * (jsstring * A)) :=
  match props with
  | [] => []
  | (k, v) :: rest =>
      match array_index k with
      | Some n => insert_by_index n (k, v) (index_properties rest)
      | None => index_properties rest
      end
  end.

Definition is_array_index (key : jsstring) : bool :=
  match array_index key with Some _ => true | None => false end.

(** [Object.entries] of an object given by its own properties in creation
    order: array indices first, ascending, then the other keys in creation
    order. *)
Definition own_entries {A : Type} (props : list (jsstring * A))
  : list (jsstring * A) :=
  map snd (index_properties props)
    ++ filter (fun kv => negb (is_array_index (fst kv))) props.

(** [Object.entries(agentsByRole)], the list the role sections are mapped
    from. *)
Definition role_sections (agents : list Agent)
  : completion (list (jsstring * list Agent)) :=
  roleGroups <- agentsByRole agents ;;
  Normal (own_entries roleGroups).

(** The distinct elements of a list of strings, each at its first place. *)
Fixpoint first_occurrences (seen l : list jsstring) : list jsstring :=
  match l with
  | [] => []
  | x :: rest =>
      if existsb (jsstring_eqb x) seen then first_occurrences seen rest
      else x :: first_occurrences (x :: seen) rest
  end.

(** The agents of one role, in their order. *)
Definition agents_of_role (role : jsstring) (agents : list Agent) : list Agent :=
  filter (fun agent => jsstring_eqb (agent_role agent) role) agents.

(** The groups as a function of the agents: one group per distinct role, in
    the order in which the roles first occur, each with its agents. *)
Definition groups_of (agents : list Agent) : list (jsstring * list Agent) :=
  map (fun role => (role, agents_of_role role agents))
    (first_occurrences [] (map agent_role agents)).

(** The role of the agent is the name of a member of [Object.prototype]. *)
Definition inherited_role (agent : Agent) : bool :=
  existsb (jsstring_eqb (agent_role agent)) Object_prototype_keys.

(** The index of a key that is an array index. *)
Definition key_index (key : jsstring) : N :=
  match array_index key with Some n => n | None => 0%N end.

(** ** The team section: skills *)

Record skill : Type := {
  skill_name : jsstring;
  skill_level : option jsstring
}.

Section Skills.

(** [String.prototype.toLowerCase], the language's. *)
Variable toLowerCase : jsstring -> jsstring.

(** [getSkillLevelColor]; [None] is a missing level. *)
Definition getSkillLevelColor (level : option jsstring) : string :=
  match level with
  | None => "text-gray-600"
  | Some l =>
      let lowered := toLowerCase l in
      if jsstring_eqb lowered (lit "beginner") then "text-blue-600"
      else if jsstring_eqb lowered (lit "intermediate") then "text-purple-600"
      else if jsstring_eqb lowered (lit "expert") then "text-indigo-600"
      else "text-gray-600"
  end.

(** One chip of [renderSkills]. *)
Definition skill_chip (index : nat) (sk : skill) : rnode :=
  RElem "div"
    "text-xs px-2 py-1 rounded-full bg-gray-50 border border-gray-200 flex items-center"
    (IndexKey index)
    [ el "span" "" [RText (skill_name sk)];
      match skill_level sk with
      | None => RUndefined
      | Some level =>
          if length level =? 0 then RText level
          else
            el "span" ("ml-1 text-xs " ++ getSkillLevelColor (skill_level sk))
              [RText (lit "("); RText level; RText (lit ")")]
      end ].

Fixpoint skill_chips (index : nat) (skills : list skill) : list rnode :=
  match skills with
  | [] => []
  | sk :: rest => skill_chip index sk :: skill_chips (S index) rest
  end.

(** [renderSkills]; the result [None] is [null]. *)
Definition renderSkills (skills : option (list skill)) : option rnode :=
  match skills with
  | None => None
  | Some skills =>
      if length skills =? 0 then None
      else
        Some (el "div" "mt-2"
          [ el "div" "flex flex-wrap gap-1"
              [ RList (skill_chips 0 (Array_slice 0 3 skills));
                and_then (3 <? length skills)
                  (el "div"
                     "text-xs px-2 py-1 rounded-full bg-gray-50 border border-gray-200"
                     [RText (lit "+"); RNum (Z.of_nat (length skills) - 3)]) ] ])
  end.

End Skills.

(** ** The asset viewer: tabs and panels *)

(** The value of [tab.key] for each view. *)
Definition view_key (v : view) : jsstring :=
  match v with
  | visual => lit "visual"
  | data => lit "data"
  | usage => lit "usage"
  end.

Record view_tab : Type := {
  view_tab_key : view;
  view_tab_label : jsstring;
  view_tab_desc : jsstring
}.

(** The three tabs of the navigation, in their order. *)
Definition view_tabs : list view_tab :=
  [ {| view_tab_key := visual;
       view_tab_label := [55357; 56385; 65039]%N ++ lit " Visual View";
       view_tab_desc := lit "Formatted view" |};
    {| view_tab_key := usage;
       view_tab_label := bulb_emoji ++ lit " Usage Guide";
       view_tab_desc := lit "How to use" |};
    {| view_tab_key := data;
       view_tab_label := [55357; 56615]%N ++ lit " Raw Data";
       view_tab_desc := lit "Technical view" |} ].

Definition active_tab_classes : string :=
  "border-green-500 text-green-600 bg-green-50".
Definition idle_tab_classes : string :=
  "border-transparent text-gray-500 hover:text-gray-700 hover:border-gray-300".

(** One button of the navigation as rendered for [activeView]. *)
Definition tab_button (activeView : view) (tab : view_tab) : rnode :=
  RElem "button"
    ("flex-1 px-6 py-4 text-center border-b-2 transition "
       ++ (if jsstring_eqb (view_key activeView) (view_key (view_tab_key tab))
           then active_tab_classes else idle_tab_classes))
    (NameKey (view_key (view_tab_key tab)))
    [ el "div" "font-medium" [RText (view_tab_label tab)];
      el "div" "text-xs text-gray-500" [RText (view_tab_desc tab)] ].

Definition tab_navigation (activeView : view) : list rnode :=
  map (tab_button activeView) view_tabs.

(** A click on the button at [position]: its handler is
    [setActiveView(tab.key)]. *)
Definition SmartAssetViewer_click (activeView : view) (position : nat) : view :=
  match nth_error view_tabs position with
  | Some tab => view_tab_key tab
  | None => activeView
  end.

(** The class attribute of an element. *)
Definition className_of (r : rnode) : string :=
  match r with
  | RElem _ className _ _ => className
  | _ => ""
  end.

(** A child that React puts on the page. *)
Definition shown (r : rnode) : bool :=
  match r with
  | RFalse | RUndefined => false
  | _ => true
  end.

(** A bigint somewhere in a value, at a place [JSON.stringify] visits. *)
Fixpoint contains_bigint (value : jsvalue) : bool :=
  match value with
  | VBigInt _ => true
  | VArray items => existsb contains_bigint items
  | VObject entries => existsb (fun kv => contains_bigint (snd kv)) entries
  | _ => false
  end.

(** A serializer either raises on a value that holds a bigint or returns. *)
Definition raises_on_bigint (f : jsvalue -> completion (option jsstring))
  (value : jsvalue) : Prop :=
  if contains_bigint value then f value = Throw TypeError
  else exists r, f value = Normal r.

(** The two loops of [SerializeJSONProperty], for any serializer [f] of the
    parts. *)
Section JsonLoops.

Variable f : jsvalue -> completion (option jsstring).
Variable gap : jsstring.

Fixpoint serialize_elements (l : list jsvalue) : completion (list jsstring) :=
  match l with
  | [] => Normal []
  | item :: rest =>
      strP <- f item ;;
      others <- serialize_elements rest ;;
      Normal (match strP with
              | Some str => str
              | None => lit "null"
              end :: others)
  end.

Fixpoint serialize_members (l : list (jsstring * jsvalue))
  : completion (list jsstring) :=
  match l with
  | [] => Normal []
  | (key, val) :: rest =>
      strP <- f val ;;
      others <- serialize_members rest ;;
      Normal (match strP with
              | Some str =>
                  (QuoteJSONString key ++ lit ":"
                     ++ (if length gap =? 0 then [] else [space])
                     ++ str) :: others
              | None => others
              end)
  end.

End JsonLoops.

(** ** The knowledge panel: tabs, cards and summary *)







(** [s.replace('_', ' ')] and the like: a string pattern replaces its first
    occurrence only. *)
Fixpoint replace_first (c d : N) (s : jsstring) : jsstring :=
  match s with
  | [] => []
  | u :: rest => if N.eqb u c then d :: rest else u :: replace_first c d rest
  end.

(** The type line of an insight card:
    [item.type?.replace('_', ' ') || 'Insight']; [None] is a missing type. *)
Definition type_label (item_type : option jsstring) : jsstring :=
  match item_type with
  | None => lit "Insight"
  | Some t =>
      let replaced := replace_first underscore space t in
      if length replaced =? 0 then lit "Insight" else replaced
  end.

(** A literal made of ASCII units, as a class attribute. *)
Definition class_of_units (s : jsstring) : string :=
  string_of_list_ascii (map ascii_of_N s).

Section InsightCard.

(** The text of [Math.round(confidence * 100)], the language's. *)
Variable percent_text : jsnumber -> jsstring.

(** [item.confidence && (...)] of an insight card; [None] is a missing
    confidence.  A falsy number is itself the child: React writes [0] and
    [NaN] on the page. *)
Definition confidence_badge (confidence : option jsnumber) : rnode :=
  match confidence with
  | None => RUndefined
  | Some c =>
      if ToBoolean (VNumber c) then
        el "span"
          ("text-xs px-2 py-1 rounded-full "
             ++ class_of_units (InsightSection_getConfidenceColor c))
          [RText (percent_text c); RText (lit "% confidence")]
      else
        match c with
        | NaN => RText (lit "NaN")
        | _ => RNum 0
        end
  end.

End InsightCard.

(** The props of [SummaryView]; a field that is missing is [None]. *)
Record summary_data : Type := {
  recent_discoveries : option (list jsstring);
  key_constraints : option (list jsstring);
  success_patterns : option (list jsstring);
  top_tags : option (list jsstring)
}.

Fixpoint summary_items (tag className : string) (index : nat)
  (items : list jsstring) : list rnode :=
  match items with
  | [] => []
  | item :: rest =>
      RElem tag className (IndexKey index) [RText item]
        :: summary_items tag className (S index) rest
  end.

(** One block of [SummaryView]: [field?.length > 0 ? list : placeholder]
    under its heading. *)
Definition summary_block (heading_icon : jsstring) (heading : string)
  (list_class item_tag item_class placeholder : string)
  (field : option (list jsstring)) : rnode :=
  el "div" ""
    [ el "h4" "text-md font-medium text-gray-800 mb-3 flex items-center"
        [ el "span" "text-lg mr-2" [RText heading_icon]; RText (lit heading) ];
      match field with
      | Some (item :: rest) =>
          el "div" list_class
            [RList (summary_items item_tag item_class 0 (item :: rest))]
      | _ => el "div" "text-sm text-gray-500 italic" [RText (lit placeholder)]
      end ].

Definition summary_placeholder : rnode :=
  el "div" "text-center py-12"
    [ el "div" "text-4xl mb-4" [RText [55357; 56522]%N];
      el "div" "text-lg font-medium text-gray-600 mb-2"
        [RText (lit "Knowledge Summary")];
      el "div" "text-sm text-gray-500"
        [RText (lit "Summary data will appear as more insights are collected.")] ].

(** The component [SummaryView]; [None] is a missing [summary]. *)
Definition SummaryView (summary_prop : option summary_data) : rnode :=
  match summary_prop with
  | None => summary_placeholder
  | Some s =>
      el "div" "space-y-6"
        [ el "h3" "text-lg font-semibold text-gray-900"
            [RText (lit "Knowledge Summary")];
          summary_block [55357; 56589]%N "Recent Discoveries" "space-y-2"
            "div" "p-3 bg-blue-50 rounded-lg text-sm" "No recent discoveries"
            (recent_discoveries s);
          summary_block [55357; 56999]%N "Key Constraints" "space-y-2"
            "div" "p-3 bg-yellow-50 rounded-lg text-sm" "No constraints identified"
            (key_constraints s);
          summary_block [9989%N] "Success Patterns" "space-y-2"
            "div" "p-3 bg-green-50 rounded-lg text-sm"
            "No success patterns identified"
            (success_patterns s);
          summary_block [55356; 57335; 65039]%N "Top Tags" "flex flex-wrap gap-2"
            "span" "px-3 py-1 bg-gray-100 text-gray-700 rounded-full text-sm"
            "No tags available"
            (top_tags s) ]
  end.

(** What one block of the summary shows under its heading. *)
Definition block_text (placeholder : string) (field : option (list jsstring))
  : jsstring :=
  match field with
  | Some (item :: rest) => concat (item :: rest)
  | _ => lit placeholder
  end.

(** A section that has a tab. *)
Definition tabbed (s : section) : bool :=
  match s with Manage => false | _ => true end.

(** *** More sample inputs *)

Definition sample_agent (name role : string) : Agent :=
  {| agent_id := lit name; agent_name := lit name; agent_role := lit role |}.

Definition sample_team : list Agent :=
  [ sample_agent "ada" "developer"; sample_agent "bob" "designer";
    sample_agent "cy" "developer" ].

Definition sample_bad_team : list Agent :=
  [ sample_agent "ada" "developer"; sample_agent "eve" "constructor" ].

(** Lower case on the letters [A-Z], enough for the examples. *)
Definition sample_toLowerCase (s : jsstring) : jsstring :=
  map (fun c => if is_upper c then (c + 32)%N else c) s.

Definition sample_skills : list skill :=
  [ {| skill_name := lit "Rocq"; skill_level := Some (lit "Expert") |};
    {| skill_name := lit "React"; skill_level := None |};
    {| skill_name := lit "SQL"; skill_level := Some (lit "beginner") |};
    {| skill_name := lit "Go"; skill_level := Some (lit "intermediate") |} ].

(** A stand-in for the text of [Math.round(confidence * 100)]: the integer
    part of the exact product. *)
Definition sample_percent_text (c : jsnumber) : jsstring :=
  match c with
  | Finite q => decimal (Qnum q * 100 / Zpos (Qden q))%Z
  | other => sample_Number_toString other
  end.

(** ** Reasoning principles *)

(** Induction on a value with the hypothesis for every item of an array and
    for every property value of an object. *)
Section ValueInduction.

Variable P : jsvalue -> Prop.
Hypothesis P_undefined : P VUndefined.
Hypothesis P_null : P VNull.
Hypothesis P_boolean : forall b, P (VBoolean b).
Hypothesis P_number : forall n, P (VNumber n).
Hypothesis P_string : forall s, P (VString s).
Hypothesis P_bigint : forall z, P (VBigInt z).
Hypothesis P_symbol : forall d, P (VSymbol d).
Hypothesis P_function : forall src, P (VFunction src).
Hypothesis P_array : forall items, Forall P items -> P (VArray items).
Hypothesis P_object :
  forall entries, Forall (fun kv => P (snd kv)) entries -> P (VObject entries).

Lemma jsvalue_nested_ind (value : jsvalue) : P value.
Proof.
  revert value.
  fix IH 1.
  intros [ | | b | n | s | z | d | src | items | entries ].
  - exact P_undefined.
  - exact P_null.
  - apply P_boolean.
  - apply P_number.
  - apply P_string.
  - apply P_bigint.
  - apply P_symbol.
  - apply P_function.
  - apply P_array.
    induction items as [|item rest IHrest]; constructor.
    + apply IH.
    + exact IHrest.
  - apply P_object.
    induction entries as [|[key val] rest IHrest]; constructor.
    + apply IH.
    + exact IHrest.
Qed.

End ValueInduction.

(** ** Humanized labels *)

Lemma capitalize_from_length (s : jsstring) :
  forall prev, length (capitalize_from prev s) = length s.
Proof.
  induction s as [|c rest IH]; intros prev; cbn; [reflexivity|].
  rewrite IH. reflexivity.
Qed.





Lemma humanize_key_length (key : jsstring) :
  length (humanize_key key) = length key.
Proof.
  unfold humanize_key, capitalize_words, replace_all.
  rewrite capitalize_from_length. apply length_map.
Qed.


(** ** The renderer *)

(** Reads the tree out of [H : Normal t = Normal r] and closes a goal that
    says what [r] is. *)
Ltac read_result H := injection H as <-; reflexivity.

Section RendererFacts.

Variable Number_toString : jsnumber -> jsstring.

Local Abbreviation render := (SmartValueRenderer Number_toString).

Lemma render_array_unfold (items : list jsvalue) :
  render (VArray items) =
  if length items =? 0 then
    Normal (el "span" "text-gray-400 italic" [RText (lit "Empty list")])
  else
    boxes <- render_items render 5 0 items ;;
    Normal (el "div" ""
      [ el "div" "font-medium text-sm mb-2"
          [RNum (Z.of_nat (length items)); RText (lit " items:")];
        el "div" "space-y-2 max-h-48 overflow-y-auto"
          [ RList boxes;
            and_then (5 <? length items)
              (more_items (Z.of_nat (length items))) ] ]).
Proof. reflexivity. Qed.

Lemma render_object_unfold (entries : list (jsstring * jsvalue)) :
  render (VObject entries) =
  if length entries =? 0 then
    Normal (el "span" "text-gray-400 italic" [RText (lit "Empty object")])
  else
    boxes <- render_entries render 3 entries ;;
    Normal (el "div" "space-y-2"
      [ RList boxes;
        and_then (3 <? length entries)
          (more_properties (Z.of_nat (length entries))) ]).
Proof. reflexivity. Qed.

(** The loops are [slice] followed by [map]. *)
Lemma render_items_slice_map f count index l :
  render_items f count index l =
  map_indexed (fun i item => child <- f item ;; Normal (item_box i child))
    index (Array_slice 0 count l).
Proof.
  unfold Array_slice. cbn [skipn]. rewrite Nat.sub_0_r.
  revert index l.
  induction count as [|count IH]; intros index [|item rest]; cbn; try reflexivity.
  destruct (f item) as [child|e]; cbn; [|reflexivity].
  rewrite IH. reflexivity.
Qed.

Lemma render_entries_slice_map f count l :
  render_entries f count l =
  map_indexed
    (fun _ kv => child <- f (snd kv) ;; Normal (entry_box (fst kv) child))
    0 (Array_slice 0 count l).
Proof.
  unfold Array_slice. cbn [skipn]. rewrite Nat.sub_0_r.
  generalize 0.
  revert l.
  induction count as [|count IH]; intros [|[key val] rest] i; cbn; try reflexivity.
  destruct (f val) as [child|e]; cbn; [|reflexivity].
  rewrite (IH rest (S i)). reflexivity.
Qed.

(** A loop never raises when no item of the list makes the renderer raise. *)
Lemma render_items_total f l :
  Forall (fun item => exists r, f item = Normal r) l ->
  forall count index, exists boxes, render_items f count index l = Normal boxes.
Proof.
  induction 1 as [|item rest [r Hr] _ IH]; intros [|count] index; cbn; eauto.
  rewrite Hr. cbn.
  destruct (IH count (S index)) as [others ->]. cbn. eauto.
Qed.

Lemma render_entries_total f l :
  Forall (fun kv => exists r, f (snd kv) = Normal r) l ->
  forall count, exists boxes, render_entries f count l = Normal boxes.
Proof.
  induction 1 as [|[key val] rest [r Hr] _ IH]; intros [|count]; cbn; eauto.
  cbn in Hr. rewrite Hr. cbn.
  destruct (IH count) as [others ->]. cbn. eauto.
Qed.

Lemma render_never_throws (value : jsvalue) :
  exists r, render value = Normal r.
Proof.
  induction value as [ | | b | n | s | z | d | src | items IH | entries IH ]
    using jsvalue_nested_ind; try (cbn; eauto; fail).
  - cbn -[Nat.ltb substring]. destruct (200 <? length s); eauto.
  - destruct d; cbn; eauto.
  - rewrite render_array_unfold.
    destruct (length items =? 0); eauto.
    destruct (render_items_total render items IH 5 0) as [boxes ->].
    cbn. eauto.
  - rewrite render_object_unfold.
    destruct (length entries =? 0); eauto.
    destruct (render_entries_total render entries IH 3) as [boxes ->].
    cbn. eauto.
Qed.

Lemma substring_prefix (n : nat) (s : jsstring) :
  substring 0 n s = firstn n s.
Proof.
  unfold substring. cbn [Nat.min skipn].
  rewrite Nat.max_0_l, Nat.sub_0_r.
  destruct (Nat.le_ge_cases n (length s)) as [H|H].
  - rewrite Nat.min_l by exact H. reflexivity.
  - rewrite Nat.min_r by exact H.
    rewrite !firstn_all2 by lia. reflexivity.
Qed.

(** The two renderings of a string. *)
Lemma render_string_unfold (s : jsstring) :
  render (VString s) =
    Normal (if 200 <? length s
            then el "div" ""
                   [ el "div" "mb-2" [RText (firstn 200 s); RText (lit "...")];
                     el "div" "text-xs text-gray-500"
                       [ RText (lit "("); RNum (Z.of_nat (length s));
                         RText (lit " characters total)") ] ]
            else el "span" "" [RText s]).
Proof.
  cbn -[Nat.ltb substring firstn].
  rewrite substring_prefix.
  destruct (200 <? length s); reflexivity.
Qed.

(** C1.  The renderer returns a render tree for every value and never
    raises, and each kind of value has its branch: [null] and [undefined]
    give the muted [null] marker; a string gives its text or its preview; a
    number or a boolean gives its string conversion in emphasis; an array
    gives the [Empty list] marker or the counted list of boxes; an object
    gives the [Empty object] marker or its boxes; and a value that no test
    of the chain matches (a bigint, a symbol, a function) falls through to
    the last line, its plain string conversion. *)
Theorem SmartValueRenderer_total_coverage (value : jsvalue) :
  exists r,
    render value = Normal r /\
    ((value = VNull \/ value = VUndefined) ->
       r = el "span" "text-gray-400 italic" [RText (lit "null")]) /\
    (forall s, value = VString s ->
       r = if 200 <? length s
           then el "div" ""
                  [ el "div" "mb-2" [RText (firstn 200 s); RText (lit "...")];
                    el "div" "text-xs text-gray-500"
                      [ RText (lit "("); RNum (Z.of_nat (length s));
                        RText (lit " characters total)") ] ]
           else el "span" "" [RText s]) /\
    ((typeof value = TNumber \/ typeof value = TBoolean) ->
       exists text,
         String_ Number_toString value = Normal text /\
         r = el "span" "font-medium" [RText text]) /\
    (forall items, value = VArray items ->
       if length items =? 0
       then r = el "span" "text-gray-400 italic" [RText (lit "Empty list")]
       else exists boxes,
         r = el "div" ""
               [ el "div" "font-medium text-sm mb-2"
                   [RNum (Z.of_nat (length items)); RText (lit " items:")];
                 el "div" "space-y-2 max-h-48 overflow-y-auto"
                   [ RList boxes;
                     and_then (5 <? length items)
                       (more_items (Z.of_nat (length items))) ] ]) /\
    (forall entries, value = VObject entries ->
       if length entries =? 0
       then r = el "span" "text-gray-400 italic" [RText (lit "Empty object")]
       else exists boxes,
         r = el "div" "space-y-2"
               [ RList boxes;
                 and_then (3 <? length entries)
                   (more_properties (Z.of_nat (length entries))) ]) /\
    ((typeof value = TBigint \/ typeof value = TSymbol
      \/ typeof value = TFunction) ->
       exists text,
         String_ Number_toString value = Normal text /\
         r = el "span" "" [RText text]).
Proof.
  destruct (render_never_throws value) as [r Hr].
  exists r. split; [exact Hr|].
  split.
  { intros [->| ->]; read_result Hr. }
  split.
  { intros s ->. rewrite render_string_unfold in Hr.
    read_result Hr. }
  split.
  { destruct value; cbn [typeof]; intros [H|H]; try discriminate;
      eexists; (split; [reflexivity|read_result Hr]). }
  split.
  { intros items ->. rewrite render_array_unfold in Hr.
    destruct (length items =? 0); [read_result Hr|].
    destruct (render_items render 5 0 items) as [boxes|e]; cbn [bind] in Hr;
      [|discriminate].
    exists boxes. read_result Hr. }
  split.
  { intros entries ->. rewrite render_object_unfold in Hr.
    destruct (length entries =? 0); [read_result Hr|].
    destruct (render_entries render 3 entries) as [boxes|e]; cbn [bind] in Hr;
      [|discriminate].
    exists boxes. read_result Hr. }
  destruct value as [ | | | | | | [d|] | | | ]; cbn [typeof];
    intros [H|[H|H]]; try discriminate;
    eexists; (split; [reflexivity|read_result Hr]).
Qed.

(** C2.  A string of at most 200 code units is rendered as it is.  A longer
    one is rendered as its first 200 code units, then the ellipsis, then
    its total length between the words of the count line. *)
Theorem SmartValueRenderer_string_preview (s : jsstring) :
  (length s <= 200 ->
     render (VString s) = Normal (el "span" "" [RText s]) /\
     text_of (el "span" "" [RText s]) = s) /\
  (200 < length s ->
     exists r,
       render (VString s) = Normal r /\
       r = el "div" ""
             [ el "div" "mb-2" [RText (firstn 200 s); RText (lit "...")];
               el "div" "text-xs text-gray-500"
                 [ RText (lit "("); RNum (Z.of_nat (length s));
                   RText (lit " characters total)") ] ] /\
       text_of r =
         firstn 200 s ++ lit "..."
           ++ lit "(" ++ decimal (Z.of_nat (length s))
           ++ lit " characters total)" /\
       length (firstn 200 s) = 200 /\
       s = firstn 200 s ++ skipn 200 s).
Proof.
  split; intros H; rewrite render_string_unfold.
  - destruct (Nat.ltb_spec 200 (length s)); [lia|].
    split; [reflexivity|]. cbn. apply app_nil_r.
  - destruct (Nat.ltb_spec 200 (length s)); [|lia].
    eexists. split; [reflexivity|]. split; [reflexivity|].
    split; [|split].
    + cbn -[firstn decimal lit].
      rewrite !app_nil_r, <- !app_assoc. reflexivity.
    + apply firstn_length_le. lia.
    + symmetry. apply firstn_skipn.
Qed.

(** What a loop over the items returns: one box for each of the first
    [count] items, in order, each around the rendering of its item and
    carrying the position of the item. *)
Lemma render_items_boxes f l :
  forall count index boxes,
    render_items f count index l = Normal boxes ->
    length boxes = Nat.min count (length l) /\
    forall i item,
      i < count -> nth_error l i = Some item ->
      exists child,
        f item = Normal child /\
        nth_error boxes i = Some (item_box (index + i) child).
Proof.
  induction l as [|x rest IH]; intros [|count] index boxes H; cbn in H.
  - inversion H. split; [reflexivity|]. intros i item Hi. lia.
  - inversion H. split; [reflexivity|]. intros [|i] item _ Hn; discriminate.
  - inversion H. split; [reflexivity|]. intros i item Hi. lia.
  - destruct (f x) as [child|e] eqn:Hx; cbn in H; [|discriminate].
    destruct (render_items f count (S index) rest) as [others|e] eqn:Hr;
      cbn in H; [|discriminate].
    inversion H; subst boxes; clear H.
    destruct (IH _ _ _ Hr) as [Hlen Hnth].
    split; [cbn; rewrite Hlen; reflexivity|].
    intros [|i] item Hi Hn; cbn in Hn.
    + inversion Hn; subst item. exists child.
      rewrite Nat.add_0_r. split; [exact Hx|reflexivity].
    + destruct (Hnth i item) as [c [Hc Hb]]; [lia|exact Hn|].
      exists c. split; [exact Hc|].
      cbn. rewrite Hb. f_equal. f_equal. lia.
Qed.

(** A loop reads the first [count] items only. *)
Lemma render_items_prefix f l :
  forall count index,
    render_items f count index l = render_items f count index (firstn count l).
Proof.
  induction l as [|x rest IH]; intros [|count] index; cbn; try reflexivity.
  rewrite <- IH. reflexivity.
Qed.

(** C3.  An empty list is rendered as the [Empty list] marker.  Otherwise
    the rendering states the number of items and holds one box for each of
    the first five items, in the order of the list; the box at position [i]
    is labelled [Item i+1] and holds the rendering of item [i].  The marker
    [+ n-5 more items] follows exactly when the list has more than five
    items, and the items after the fifth are never looked at: two lists of
    one length with the same first five items render alike. *)
Theorem SmartValueRenderer_list (items : list jsvalue) :
  (items = [] ->
     render (VArray items) =
       Normal (el "span" "text-gray-400 italic" [RText (lit "Empty list")])) /\
  (items <> [] ->
     exists boxes,
       render (VArray items) =
         Normal (el "div" ""
           [ el "div" "font-medium text-sm mb-2"
               [RNum (Z.of_nat (length items)); RText (lit " items:")];
             el "div" "space-y-2 max-h-48 overflow-y-auto"
               [ RList boxes;
                 if 5 <? length items
                 then el "div" "text-xs text-gray-500 text-center"
                        [ RText (lit "+ "); RNum (Z.of_nat (length items) - 5);
                          RText (lit " more items") ]
                 else RFalse ] ]) /\
       length boxes = Nat.min 5 (length items) /\
       (forall i item,
          i < 5 -> nth_error items i = Some item ->
          exists child,
            render item = Normal child /\
            nth_error boxes i =
              Some (RElem "div" "bg-gray-50 rounded p-2 text-sm" (IndexKey i)
                      [ el "div" "text-xs text-gray-500 mb-1"
                          [RText (lit "Item "); RNum (Z.of_nat i + 1)];
                        child ]))) /\
  (forall items',
     length items' = length items ->
     firstn 5 items' = firstn 5 items ->
     render (VArray items') = render (VArray items)).
Proof.
  repeat split.
  - intros ->. reflexivity.
  - intros Hne. rewrite render_array_unfold.
    destruct items as [|x rest]; [congruence|].
    cbn [length Nat.eqb].
    destruct (render_items_total render (x :: rest)) with (count := 5) (index := 0)
      as [boxes Hb].
    { apply Forall_forall. intros v _. apply render_never_throws. }
    rewrite Hb. cbn [bind].
    exists boxes. split; [reflexivity|].
    exact (render_items_boxes _ _ _ _ _ Hb).
  - intros items' Hlen Hpre.
    rewrite !render_array_unfold, Hlen.
    rewrite (render_items_prefix render items'), (render_items_prefix render items).
    rewrite Hpre. reflexivity.
Qed.


Lemma render_entries_prefix f l :
  forall count,
    render_entries f count l = render_entries f count (firstn count l).
Proof.
  induction l as [|[k v] rest IH]; intros [|count]; cbn; try reflexivity.
  rewrite <- IH. reflexivity.
Qed.


End RendererFacts.

Lemma SmartValueRenderer_string_preview_witness :
  SmartValueRenderer sample_Number_toString (VString (lit "Short text")) =
    Normal (el "span" "" [RText (lit "Short text")]) /\
  length (firstn 200 (repeat 65%N 201)) = 200.
Proof.
  destruct (SmartValueRenderer_string_preview sample_Number_toString
              (lit "Short text")) as [Hshort _].
  destruct (SmartValueRenderer_string_preview sample_Number_toString
              (repeat 65%N 201)) as [_ Hlong].
  split.
  - apply Hshort. cbn. lia.
  - destruct Hlong as [r [_ [_ [_ [Hlen _]]]]].
    + rewrite repeat_length. lia.
    + exact Hlen.
Defined.

Lemma SmartValueRenderer_total_coverage_witness :
  exists r,
    SmartValueRenderer sample_Number_toString (VBigInt 42) = Normal r /\
    r = el "span" "" [RText (lit "42")].
Proof.
  destruct (SmartValueRenderer_total_coverage sample_Number_toString (VBigInt 42))
    as [r [Hr [_ [_ [_ [_ [_ Hother]]]]]]].
  exists r. split; [exact Hr|].
  destruct Hother as [text [Ht ->]]; [left; reflexivity|].
  injection Ht as <-. reflexivity.
Defined.

Lemma SmartValueRenderer_list_witness :
  exists boxes,
    SmartValueRenderer sample_Number_toString (VArray seven_items) =
      Normal (el "div" ""
        [ el "div" "font-medium text-sm mb-2" [RNum 7; RText (lit " items:")];
          el "div" "space-y-2 max-h-48 overflow-y-auto"
            [ RList boxes;
              el "div" "text-xs text-gray-500 text-center"
                [RText (lit "+ "); RNum 2; RText (lit " more items")] ] ]) /\
    length boxes = 5.
Proof.
  destruct (SmartValueRenderer_list sample_Number_toString seven_items)
    as [_ [Hsome _]].
  destruct Hsome as [boxes [Hr [Hlen _]]]; [discriminate|].
  exists boxes. split; [exact Hr|exact Hlen].
Defined.


(** ** The asset viewer *)

Section ViewerFacts.

Variable Number_toString : jsnumber -> jsstring.

Local Abbreviation render := (SmartValueRenderer Number_toString).

(** The fields of the visual view: one per entry, in order, never raising. *)
Lemma render_fields (entries : list (jsstring * jsvalue)) :
  exists fields,
    map_completion
      (fun kv => child <- render (snd kv) ;; Normal (field_box (fst kv) child))
      entries = Normal fields /\
    length fields = length entries /\
    forall i key val,
      nth_error entries i = Some (key, val) ->
      exists child,
        render val = Normal child /\
        nth_error fields i = Some (field_box key child).
Proof.
  induction entries as [|[k v] rest [fields [Hm [Hlen Hnth]]]]; cbn.
  - exists []. repeat split. intros [|i] key val H; discriminate.
  - destruct (render_never_throws Number_toString v) as [child Hc].
    rewrite Hc, Hm. cbn.
    exists (field_box k child :: fields).
    repeat split.
    + cbn. rewrite Hlen. reflexivity.
    + intros [|i] key val H; cbn in H.
      * inversion H; subst. exists child. split; [exact Hc|reflexivity].
      * exact (Hnth i key val H).
Qed.




End ViewerFacts.


(** ** The label helpers *)





(** ** The knowledge panel *)

Lemma js_ge_trans (a b c : jsnumber) :
  js_ge a b = true -> js_ge b c = true -> js_ge a c = true.
Proof.
  destruct a as [|[|]|p], b as [|[|]|q], c as [|[|]|r]; cbn;
    try reflexivity; try discriminate.
  intros H1 H2.
  apply Qle_bool_iff in H1. apply Qle_bool_iff in H2.
  apply Qle_bool_iff. eapply Qle_trans; eassumption.
Qed.

Lemma js_lt_not_ge (a b : jsnumber) :
  js_lt a b = true -> js_ge a b = false.
Proof.
  destruct a as [|[|]|p], b as [|[|]|q]; cbn; try reflexivity; try discriminate.
  intros H. apply negb_true_iff in H. exact H.
Qed.

Lemma tier_rank_getConfidenceColor (c : jsnumber) :
  tier_rank (getConfidenceColor c) =
    if js_ge c number_0_8 then 2 else if js_ge c number_0_6 then 1 else 0.
Proof.
  unfold getConfidenceColor.
  destruct (js_ge c number_0_8); [reflexivity|].
  destruct (js_ge c number_0_6); reflexivity.
Qed.

(** C6.  A confidence of at least [0.8] gets the green pairing, one of at
    least [0.6] and below [0.8] the yellow pairing, one below [0.6] the red
    pairing; the bounds belong to the upper tier, and [0.59999] is red.
    The tier never goes down when the confidence goes up.  The copy of the
    function in [InsightSection] agrees. *)
Theorem getConfidenceColor_tiers :
  (forall c, js_ge c number_0_8 = true -> getConfidenceColor c = green_pair) /\
  (forall c, js_ge c number_0_6 = true -> js_lt c number_0_8 = true ->
             getConfidenceColor c = yellow_pair) /\
  (forall c, js_lt c number_0_6 = true -> getConfidenceColor c = red_pair) /\
  (forall c1 c2, js_le c1 c2 = true ->
                 tier_rank (getConfidenceColor c1)
                 <= tier_rank (getConfidenceColor c2)) /\
  getConfidenceColor number_0_8 = green_pair /\
  getConfidenceColor number_0_6 = yellow_pair /\
  getConfidenceColor number_0_59999 = red_pair /\
  (forall c, InsightSection_getConfidenceColor c = getConfidenceColor c).
Proof.
  repeat split; try reflexivity.
  - intros c H. unfold getConfidenceColor. rewrite H. reflexivity.
  - intros c H6 H8. unfold getConfidenceColor.
    rewrite (js_lt_not_ge _ _ H8), H6. reflexivity.
  - intros c H. unfold getConfidenceColor.
    assert (H8 : js_ge c number_0_8 = false).
    { destruct (js_ge c number_0_8) eqn:E; [|reflexivity].
      assert (Habs : js_ge c number_0_6 = true)
        by (apply (js_ge_trans c number_0_8 number_0_6 E); reflexivity).
      rewrite (js_lt_not_ge _ _ H) in Habs. discriminate. }
    rewrite H8, (js_lt_not_ge _ _ H). reflexivity.
  - intros c1 c2 Hle. unfold js_le in Hle.
    rewrite !tier_rank_getConfidenceColor.
    destruct (js_ge c1 number_0_8) eqn:E1.
    + rewrite (js_ge_trans c2 c1 number_0_8 Hle E1). lia.
    + destruct (js_ge c1 number_0_6) eqn:E2.
      * rewrite (js_ge_trans c2 c1 number_0_6 Hle E2).
        destruct (js_ge c2 number_0_8); lia.
      * lia.
Qed.

Lemma getConfidenceColor_tiers_witness :
  getConfidenceColor (Finite (19 # 20)) = green_pair /\
  getConfidenceColor (Finite (7 # 10)) = yellow_pair /\
  getConfidenceColor (Finite (1 # 10)) = red_pair /\
  tier_rank (getConfidenceColor (Finite (1 # 10)))
  <= tier_rank (getConfidenceColor (Finite (7 # 10))).
Proof.
  destruct getConfidenceColor_tiers as [Hgreen [Hyellow [Hred [Hmono _]]]].
  split; [|split; [|split]].
  - apply Hgreen. reflexivity.
  - apply Hyellow; reflexivity.
  - apply Hred. reflexivity.
  - apply Hmono. reflexivity.
Defined.

Section DateFacts.

Variable Date_parse : jsstring -> option Z.
Variable format_en_US : Z -> jsstring.

(** [formatDate] never raises, so its handler never runs: an unreadable
    date string comes back as [Invalid Date]. *)
Lemma formatDate_value (dateString : jsstring) :
  formatDate Date_parse format_en_US dateString =
    Normal match Date_new Date_parse dateString with
           | None => lit "Invalid Date"
           | Some t => format_en_US t
           end.
Proof.
  unfold formatDate.
  destruct (Date_new Date_parse dateString); reflexivity.
Qed.

(** C5, on the code.  For the string [not-a-date], which no engine reads as
    a date, [formatDate] does not raise, and what it returns is the text
    [Invalid Date], not the [Unknown] of its handler. *)
Theorem formatDate_not_a_date :
  Date_parse (lit "not-a-date") = None ->
  formatDate Date_parse format_en_US (lit "not-a-date") =
    Normal (lit "Invalid Date") /\
  jsstring_eqb (lit "Invalid Date") (lit "Unknown") = false.
Proof.
  intros H. split; [|reflexivity].
  rewrite formatDate_value. unfold Date_new. rewrite H. reflexivity.
Qed.

End DateFacts.

Lemma formatDate_not_a_date_witness :
  formatDate sample_Date_parse sample_format_en_US (lit "not-a-date") =
    Normal (lit "Invalid Date") /\
  jsstring_eqb (lit "Invalid Date") (lit "Unknown") = false.
Proof.
  apply (formatDate_not_a_date sample_Date_parse sample_format_en_US).
  reflexivity.
Defined.

Section PanelFacts.

Variable knowledgeData : knowledge_data.

Local Abbreviation step := (panel_step knowledgeData).
Local Abbreviation run := (panel_run knowledgeData).
Local Abbreviation rendered := (KnowledgeInsightsArtifact knowledgeData).





End PanelFacts.


(** ** The team section *)

Lemma jsstring_eqb_eq (a b : jsstring) : jsstring_eqb a b = true <-> a = b.
Proof.
  unfold jsstring_eqb. destruct (list_eq_dec N.eq_dec a b); split; congruence.
Qed.

Lemma jsstring_eqb_refl (a : jsstring) : jsstring_eqb a a = true.
Proof. apply jsstring_eqb_eq. reflexivity. Qed.

Lemma jsstring_eqb_neq (a b : jsstring) : jsstring_eqb a b = false <-> a <> b.
Proof.
  unfold jsstring_eqb. destruct (list_eq_dec N.eq_dec a b); split; congruence.
Qed.

Lemma jsstring_eqb_sym (a b : jsstring) : jsstring_eqb a b = jsstring_eqb b a.
Proof.
  destruct (jsstring_eqb b a) eqn:E.
  - apply jsstring_eqb_eq. apply jsstring_eqb_eq in E. congruence.
  - apply jsstring_eqb_neq. apply jsstring_eqb_neq in E. congruence.
Qed.

(** Membership of a string in a list, as the code tests it. *)
Lemma mem_In (x : jsstring) (l : list jsstring) :
  existsb (jsstring_eqb x) l = true <-> In x l.
Proof.
  rewrite existsb_exists. split.
  - intros [y [Hy He]]. apply jsstring_eqb_eq in He. congruence.
  - intros H. exists x. split; [exact H|apply jsstring_eqb_refl].
Qed.

Lemma mem_not_In (x : jsstring) (l : list jsstring) :
  existsb (jsstring_eqb x) l = false <-> ~ In x l.
Proof.
  rewrite <- mem_In. destruct (existsb (jsstring_eqb x) l); split; congruence.
Qed.

Lemma first_occurrences_In (l : list jsstring) :
  forall seen k,
    In k (first_occurrences seen l) <-> In k l /\ ~ In k seen.
Proof.
  induction l as [|x rest IH]; intros seen k; cbn.
  - tauto.
  - destruct (existsb (jsstring_eqb x) seen) eqn:E.
    + apply mem_In in E. rewrite IH. split.
      * tauto.
      * intros [[->|H] Hn]; tauto.
    + apply mem_not_In in E. cbn. rewrite IH. cbn. split.
      * intros [->|[H Hn]]; tauto.
      * intros [[->|H] Hn]; [tauto|].
        destruct (list_eq_dec N.eq_dec x k); [tauto|]. right. tauto.
Qed.

Lemma first_occurrences_NoDup (l : list jsstring) :
  forall seen, NoDup (first_occurrences seen l).
Proof.
  induction l as [|x rest IH]; intros seen; cbn; [constructor|].
  destruct (existsb (jsstring_eqb x) seen); [apply IH|].
  constructor; [|apply IH].
  rewrite first_occurrences_In. cbn. tauto.
Qed.

Lemma first_occurrences_snoc (l : list jsstring) :
  forall seen x,
    first_occurrences seen (l ++ [x]) =
      first_occurrences seen l
        ++ (if (existsb (jsstring_eqb x) seen || existsb (jsstring_eqb x) l)%bool
            then [] else [x]).
Proof.
  induction l as [|y rest IH]; intros seen x; cbn.
  - rewrite orb_false_r. destruct (existsb (jsstring_eqb x) seen); reflexivity.
  - destruct (existsb (jsstring_eqb y) seen) eqn:E.
    + rewrite IH.
      destruct (jsstring_eqb x y) eqn:Exy; cbn [orb]; [|reflexivity].
      apply jsstring_eqb_eq in Exy. subst y. rewrite E. reflexivity.
    + rewrite IH. cbn [existsb].
      destruct (jsstring_eqb x y); cbn [orb app]; [|reflexivity].
      rewrite orb_true_r. rewrite app_nil_r. reflexivity.
Qed.

Section Properties.

Context {A : Type}.

Lemma own_property_map (f : jsstring -> A) (keys : list jsstring) (r : jsstring) :
  own_property (map (fun k => (k, f k)) keys) r =
    if existsb (jsstring_eqb r) keys then Some (f r) else None.
Proof.
  induction keys as [|k rest IH]; cbn; [reflexivity|].
  rewrite (jsstring_eqb_sym r k).
  destruct (jsstring_eqb k r) eqn:E; cbn [orb]; [|exact IH].
  apply jsstring_eqb_eq in E. subst k. reflexivity.
Qed.

Lemma set_property_map (f : jsstring -> A) (keys : list jsstring)
  (r : jsstring) (v : A) :
  NoDup keys -> In r keys ->
  set_property (map (fun k => (k, f k)) keys) r v =
    map (fun k => (k, if jsstring_eqb k r then v else f k)) keys.
Proof.
  induction keys as [|k rest IH]; intros Hnd Hin; [destruct Hin|].
  inversion Hnd as [|? ? Hk Hrest]; subst. cbn.
  destruct (jsstring_eqb k r) eqn:E.
  - apply jsstring_eqb_eq in E. subst k. f_equal.
    apply map_ext_in. intros k' Hk'.
    destruct (jsstring_eqb k' r) eqn:E'; [|reflexivity].
    apply jsstring_eqb_eq in E'. subst k'. contradiction.
  - f_equal. apply IH; [exact Hrest|].
    destruct Hin as [->|H]; [|exact H].
    rewrite jsstring_eqb_refl in E. discriminate.
Qed.

Lemma set_property_fresh (f : jsstring -> A) (keys : list jsstring)
  (r : jsstring) (v : A) :
  ~ In r keys ->
  set_property (map (fun k => (k, f k)) keys) r v =
    map (fun k => (k, f k)) keys ++ [(r, v)].
Proof.
  induction keys as [|k rest IH]; intros Hn; cbn; [reflexivity|].
  destruct (jsstring_eqb k r) eqn:E.
  - apply jsstring_eqb_eq in E. subst k. cbn in Hn. tauto.
  - f_equal. apply IH. cbn in Hn. tauto.
Qed.

Lemma set_property_last (props : list (jsstring * A)) (r : jsstring) (w v : A) :
  ~ In r (map fst props) ->
  set_property (props ++ [(r, w)]) r v = props ++ [(r, v)].
Proof.
  induction props as [|[k x] rest IH]; intros Hn; cbn.
  - rewrite jsstring_eqb_refl. reflexivity.
  - destruct (jsstring_eqb k r) eqn:E.
    + apply jsstring_eqb_eq in E. subst k. cbn in Hn. tauto.
    + f_equal. apply IH. cbn in Hn. tauto.
Qed.

End Properties.

Lemma agents_of_role_snoc (role : jsstring) (agents : list Agent) (a : Agent) :
  agents_of_role role (agents ++ [a]) =
    agents_of_role role agents
      ++ (if jsstring_eqb (agent_role a) role then [a] else []).
Proof.
  unfold agents_of_role. rewrite filter_app. cbn.
  destruct (jsstring_eqb (agent_role a) role); reflexivity.
Qed.

Lemma agents_of_role_absent (role : jsstring) (agents : list Agent) :
  ~ In role (map agent_role agents) -> agents_of_role role agents = [].
Proof.
  induction agents as [|a rest IH]; intros Hn; cbn; [reflexivity|].
  cbn in Hn.
  destruct (jsstring_eqb (agent_role a) role) eqn:E.
  - apply jsstring_eqb_eq in E. tauto.
  - apply IH. tauto.
Qed.

Lemma own_property_None {A : Type} (props : list (jsstring * A)) (r : jsstring) :
  own_property props r = None <-> ~ In r (map fst props).
Proof.
  induction props as [|[k x] rest IH]; cbn; [tauto|].
  destruct (jsstring_eqb k r) eqn:E.
  - apply jsstring_eqb_eq in E. subst k. split; [discriminate|tauto].
  - apply jsstring_eqb_neq in E. rewrite IH. tauto.
Qed.

Lemma own_property_fresh {A : Type} (props : list (jsstring * A))
  (r : jsstring) (v : A) :
  ~ In r (map fst props) ->
  set_property props r v = props ++ [(r, v)] /\
  own_property (props ++ [(r, v)]) r = Some v.
Proof.
  induction props as [|[k x] rest IH]; intros Hn; cbn.
  - rewrite jsstring_eqb_refl. split; reflexivity.
  - cbn in Hn.
    destruct (jsstring_eqb k r) eqn:E.
    + apply jsstring_eqb_eq in E. tauto.
    + destruct IH as [IH1 IH2]; [tauto|]. rewrite IH1. split; [reflexivity|exact IH2].
Qed.

(** The three ways a turn of the loop can go. *)
Lemma group_agent_own (roleGroups : list (jsstring * list Agent)) (a : Agent)
  (group : list Agent) :
  own_property roleGroups (agent_role a) = Some group ->
  group_agent roleGroups a =
    Normal (set_property roleGroups (agent_role a) (group ++ [a])).
Proof.
  intros H. unfold group_agent, roleGroups_get. cbv zeta.
  rewrite H. cbn. rewrite H. reflexivity.
Qed.

Lemma group_agent_new (roleGroups : list (jsstring * list Agent)) (a : Agent) :
  own_property roleGroups (agent_role a) = None ->
  inherited_role a = false ->
  group_agent roleGroups a = Normal (roleGroups ++ [(agent_role a, [a])]).
Proof.
  intros H Hok. unfold inherited_role in Hok.
  unfold group_agent, roleGroups_get. cbv zeta. rewrite H, Hok. cbn [slot_truthy negb].
  apply own_property_None in H.
  destruct (own_property_fresh roleGroups (agent_role a) [] H) as [Hset Hown].
  rewrite Hset, Hown.
  rewrite set_property_last by exact H. reflexivity.
Qed.

Lemma group_agent_inherited (roleGroups : list (jsstring * list Agent))
  (a : Agent) :
  own_property roleGroups (agent_role a) = None ->
  inherited_role a = true ->
  group_agent roleGroups a = Throw TypeError.
Proof.
  intros H Hbad. unfold inherited_role in Hbad.
  unfold group_agent, roleGroups_get. cbv zeta. rewrite H, Hbad. cbn [slot_truthy negb].
  rewrite H. reflexivity.
Qed.

Lemma groups_of_keys (agents : list Agent) :
  map fst (groups_of agents) = first_occurrences [] (map agent_role agents).
Proof.
  unfold groups_of. rewrite map_map. cbn. apply map_id.
Qed.

Lemma first_occurrences_roles (agents : list Agent) (k : jsstring) :
  In k (first_occurrences [] (map agent_role agents))
  <-> In k (map agent_role agents).
Proof. rewrite first_occurrences_In. cbn. tauto. Qed.

(** One turn of the loop on the groups of the agents seen so far. *)
Lemma group_agent_step (processed : list Agent) (a : Agent) :
  inherited_role a = false ->
  group_agent (groups_of processed) a = Normal (groups_of (processed ++ [a])).
Proof.
  intros Hok.
  destruct (existsb (jsstring_eqb (agent_role a)) (map agent_role processed))
    eqn:Hmem.
  - (* the role has its group already *)
    assert (Hin : In (agent_role a)
                    (first_occurrences [] (map agent_role processed)))
      by (apply first_occurrences_roles, mem_In, Hmem).
    rewrite (group_agent_own _ a (agents_of_role (agent_role a) processed)).
    2:{ unfold groups_of. rewrite own_property_map.
        apply mem_In in Hin. rewrite Hin. reflexivity. }
    f_equal. unfold groups_of.
    rewrite set_property_map
      by (try exact Hin; apply first_occurrences_NoDup).
    rewrite map_app. cbn [map]. rewrite first_occurrences_snoc. cbn [existsb orb].
    rewrite Hmem, app_nil_r.
    apply map_ext. intros k.
    rewrite agents_of_role_snoc, (jsstring_eqb_sym k).
    destruct (jsstring_eqb (agent_role a) k) eqn:E;
      [|rewrite app_nil_r; reflexivity].
    apply jsstring_eqb_eq in E. subst k. reflexivity.
  - (* a new role *)
    assert (Hout : ~ In (agent_role a) (map agent_role processed))
      by (apply mem_not_In, Hmem).
    rewrite group_agent_new; [|apply own_property_None|exact Hok].
    2:{ rewrite groups_of_keys, first_occurrences_roles. exact Hout. }
    f_equal. unfold groups_of.
    rewrite (map_app agent_role). cbn [map].
    rewrite first_occurrences_snoc. cbn [existsb orb].
    rewrite Hmem, map_app. cbn [map].
    f_equal.
    + apply map_ext_in. intros k Hk.
      rewrite agents_of_role_snoc.
      destruct (jsstring_eqb (agent_role a) k) eqn:E;
        [|rewrite app_nil_r; reflexivity].
      apply jsstring_eqb_eq in E. subst k.
      apply first_occurrences_roles in Hk. contradiction.
    + rewrite agents_of_role_snoc, jsstring_eqb_refl.
      rewrite agents_of_role_absent by exact Hout. reflexivity.
Qed.

Lemma forEach_group_from (agents : list Agent) :
  forall processed,
    existsb inherited_role agents = false ->
    forEach_group (groups_of processed) agents =
      Normal (groups_of (processed ++ agents)).
Proof.
  induction agents as [|a rest IH]; intros processed Hok; cbn [forEach_group].
  - rewrite app_nil_r. reflexivity.
  - cbn [existsb] in Hok. apply orb_false_iff in Hok. destruct Hok as [Ha Hrest].
    rewrite (group_agent_step processed a Ha). cbn [bind].
    rewrite (IH (processed ++ [a]) Hrest), <- app_assoc. reflexivity.
Qed.

Lemma forEach_group_throws (agents : list Agent) :
  forall processed,
    existsb inherited_role processed = false ->
    existsb inherited_role agents = true ->
    forEach_group (groups_of processed) agents = Throw TypeError.
Proof.
  induction agents as [|a rest IH]; intros processed Hproc Hbad; cbn [forEach_group existsb] in *.
  - discriminate.
  - destruct (inherited_role a) eqn:Ha.
    + rewrite group_agent_inherited; [reflexivity| |exact Ha].
      apply own_property_None.
      rewrite groups_of_keys, first_occurrences_roles.
      intros Hin. apply in_map_iff in Hin. destruct Hin as [b [Hb Hin]].
      assert (Hbb : inherited_role b = true).
      { unfold inherited_role in *. rewrite Hb. exact Ha. }
      assert (Hex : existsb inherited_role processed = true)
        by (apply existsb_exists; exists b; split; assumption).
      congruence.
    + rewrite (group_agent_step processed a Ha). cbn [bind].
      apply IH; [|exact Hbad].
      rewrite existsb_app. cbn [existsb]. rewrite Hproc, Ha. reflexivity.
Qed.

Lemma flat_map_nil {A B : Type} (l : list A) :
  flat_map (fun _ : A => @nil B) l = [].
Proof. induction l; cbn; auto. Qed.

Lemma flat_map_ext_on {A B : Type} (f g : A -> list B) (l : list A) :
  (forall x, In x l -> f x = g x) -> flat_map f l = flat_map g l.
Proof.
  induction l as [|x rest IH]; intros H; cbn; [reflexivity|].
  rewrite (H x) by (left; reflexivity).
  rewrite IH by (intros y Hy; apply H; right; exact Hy). reflexivity.
Qed.

(** Groups by distinct keys that cover the roles hold every agent once. *)
Lemma groups_cover (agents : list Agent) :
  forall keys,
    NoDup keys ->
    (forall a, In a agents -> In (agent_role a) keys) ->
    Permutation (flat_map (fun k => agents_of_role k agents) keys) agents.
Proof.
  induction agents as [|a rest IH]; intros keys Hnd Hcov.
  - cbn. rewrite flat_map_nil. constructor.
  - destruct (in_split (agent_role a) keys) as [k1 [k2 Hk]];
      [apply Hcov; left; reflexivity|].
    assert (Hrest : Permutation (flat_map (fun k => agents_of_role k rest) keys) rest)
      by (apply IH; [exact Hnd|intros b Hb; apply Hcov; right; exact Hb]).
    subst keys.
    apply NoDup_remove_2 in Hnd.
    assert (Hother : forall ks, (forall k, In k ks -> In k (k1 ++ k2)) ->
              flat_map (fun k => agents_of_role k (a :: rest)) ks =
              flat_map (fun k => agents_of_role k rest) ks).
    { intros ks Hks. apply flat_map_ext_on. intros k Hin. cbn.
      destruct (jsstring_eqb (agent_role a) k) eqn:E; [|reflexivity].
      apply jsstring_eqb_eq in E. subst k. exfalso. apply Hnd, Hks, Hin. }
    rewrite flat_map_app in *. cbn [flat_map] in *.
    rewrite (Hother k1) by (intros k Hin; apply in_or_app; left; exact Hin).
    rewrite (Hother k2) by (intros k Hin; apply in_or_app; right; exact Hin).
    cbn [agents_of_role filter]. rewrite jsstring_eqb_refl.
    fold (agents_of_role (agent_role a) rest).
    cbn [app].
    apply Permutation_sym, Permutation_cons_app, Permutation_sym. exact Hrest.
Qed.

Lemma groups_of_concat (agents : list Agent) :
  concat (map snd (groups_of agents)) =
    flat_map (fun k => agents_of_role k agents)
      (first_occurrences [] (map agent_role agents)).
Proof.
  unfold groups_of. rewrite map_map. cbn. rewrite flat_map_concat_map. reflexivity.
Qed.

Lemma agentsByRole_groups_aux (agents : list Agent) :
  existsb inherited_role agents = false ->
  agentsByRole agents = Normal (groups_of agents) /\
  Permutation (concat (map snd (groups_of agents))) agents.
Proof.
  intros Hok. split; [exact (forEach_group_from agents [] Hok)|].
  rewrite groups_of_concat.
  apply groups_cover; [apply first_occurrences_NoDup|].
  intros a Ha. apply first_occurrences_roles, in_map, Ha.
Qed.

(** X1.  When no role is the name of a member of [Object.prototype], the
    loop of [agentsByRole] builds one group per distinct role, in the order
    in which the roles first occur; a group holds the agents of its role in
    their order and is never empty, and the groups together hold every
    agent exactly once. *)
Theorem agentsByRole_groups (agents : list Agent) :
  existsb inherited_role agents = false ->
  agentsByRole agents =
    Normal (map (fun role => (role, agents_of_role role agents))
              (first_occurrences [] (map agent_role agents))) /\
  NoDup (first_occurrences [] (map agent_role agents)) /\
  (forall role,
     In role (first_occurrences [] (map agent_role agents)) ->
     In role (map agent_role agents) /\ agents_of_role role agents <> []) /\
  Permutation
    (flat_map (fun role => agents_of_role role agents)
       (first_occurrences [] (map agent_role agents)))
    agents.
Proof.
  intros Hok.
  split; [exact (forEach_group_from agents [] Hok)|].
  split; [apply first_occurrences_NoDup|].
  split.
  - intros role Hin. apply first_occurrences_roles in Hin.
    split; [exact Hin|].
    apply in_map_iff in Hin. destruct Hin as [a [Ha Hin]].
    intros Hempty.
    assert (Hmem : In a (agents_of_role role agents)).
    { apply filter_In. split; [exact Hin|]. apply jsstring_eqb_eq. exact Ha. }
    rewrite Hempty in Hmem. destruct Hmem.
  - apply groups_cover; [apply first_occurrences_NoDup|].
    intros a Ha. apply first_occurrences_roles, in_map, Ha.
Qed.

(** X2.  [agentsByRole] raises a [TypeError] exactly when some agent has a
    role that is the name of a member of [Object.prototype], such as
    [constructor] or [toString]: the lookup finds the inherited member,
    which has no [push]. *)
Theorem agentsByRole_inherited_role (agents : list Agent) :
  agentsByRole agents = Throw TypeError <-> existsb inherited_role agents = true.
Proof.
  split.
  - intros Hthrow.
    destruct (existsb inherited_role agents) eqn:E; [reflexivity|].
    change (forEach_group (groups_of []) agents = Throw TypeError) in Hthrow.
    rewrite (forEach_group_from agents [] E) in Hthrow. discriminate.
  - intros Hbad. exact (forEach_group_throws agents [] eq_refl Hbad).
Qed.

Lemma insert_by_index_perm {B : Type} (n : N) (e : B) (sorted : list (N * B)) :
  Permutation (insert_by_index n e sorted) ((n, e) :: sorted).
Proof.
  induction sorted as [|[m f] rest IH]; cbn; [apply Permutation_refl|].
  destruct (N.leb n m); [apply Permutation_refl|].
  eapply perm_trans; [apply perm_skip, IH|apply perm_swap].
Qed.

Lemma insert_by_index_sorted {B : Type} (n : N) (e : B) (sorted : list (N * B)) :
  Sorted (fun x y => (fst x <= fst y)%N) sorted ->
  Sorted (fun x y => (fst x <= fst y)%N) (insert_by_index n e sorted).
Proof.
  induction 1 as [|[m f] rest Hs IH Hhd]; cbn.
  - repeat constructor.
  - destruct (N.leb_spec n m) as [Hle|Hlt].
    + constructor; [constructor; assumption|constructor; exact Hle].
    + constructor; [exact IH|].
      destruct rest as [|[m' f'] rest']; cbn.
      * constructor. cbn. lia.
      * destruct (N.leb n m'); constructor; cbn.
        -- lia.
        -- inversion Hhd; subst. assumption.
Qed.

Lemma filter_split_perm {B : Type} (p : B -> bool) (l : list B) :
  Permutation (filter p l ++ filter (fun x => negb (p x)) l) l.
Proof.
  induction l as [|x rest IH]; cbn; [constructor|].
  destruct (p x); cbn.
  - apply perm_skip. exact IH.
  - apply Permutation_sym, Permutation_cons_app, Permutation_sym. exact IH.
Qed.

Section OwnEntries.

Context {A : Type}.

Lemma index_properties_sorted (props : list (jsstring * A)) :
  Sorted (fun x y => (fst x <= fst y)%N) (index_properties props).
Proof.
  induction props as [|[k v] rest IH]; cbn; [constructor|].
  destruct (array_index k); [apply insert_by_index_sorted|]; exact IH.
Qed.

Lemma index_properties_keys (props : list (jsstring * A)) :
  Forall (fun p => array_index (fst (snd p)) = Some (fst p))
    (index_properties props).
Proof.
  induction props as [|[k v] rest IH]; cbn; [constructor|].
  destruct (array_index k) as [n|] eqn:E; [|exact IH].
  eapply Permutation_Forall;
    [apply Permutation_sym, insert_by_index_perm|].
  constructor; [exact E|exact IH].
Qed.

Lemma index_properties_perm (props : list (jsstring * A)) :
  Permutation (map snd (index_properties props))
    (filter (fun kv => is_array_index (fst kv)) props).
Proof.
  induction props as [|[k v] rest IH]; cbn; [constructor|].
  unfold is_array_index at 1. cbn [fst].
  destruct (array_index k) as [n|]; [|exact IH].
  eapply perm_trans; [apply Permutation_map, insert_by_index_perm|].
  cbn. apply perm_skip. exact IH.
Qed.

(** [Object.entries] keeps every property. *)
Lemma own_entries_perm (props : list (jsstring * A)) :
  Permutation (own_entries props) props.
Proof.
  unfold own_entries.
  eapply perm_trans;
    [apply Permutation_app_tail, index_properties_perm|].
  apply (filter_split_perm (fun kv => is_array_index (fst kv))).
Qed.

(** Without array indices among the keys, creation order is kept. *)
Lemma own_entries_named (props : list (jsstring * A)) :
  existsb (fun kv => is_array_index (fst kv)) props = false ->
  own_entries props = props.
Proof.
  unfold own_entries.
  induction props as [|[k v] rest IH]; intros H; cbn in *; [reflexivity|].
  apply orb_false_iff in H. destruct H as [Hk Hrest].
  unfold is_array_index in Hk.
  destruct (array_index k) eqn:E; [discriminate|].
  unfold is_array_index at 1. rewrite E. cbn.
  specialize (IH Hrest).
  destruct (index_properties rest) as [|p ps] eqn:Ei.
  - cbn in IH. cbn. f_equal. exact IH.
  - exfalso.
    assert (Hin : In (snd p) (filter (fun kv => is_array_index (fst kv)) rest)).
    { eapply Permutation_in; [apply index_properties_perm|].
      rewrite Ei. left. reflexivity. }
    apply filter_In in Hin. destruct Hin as [Hin Hidx].
    assert (Hex : existsb (fun kv => is_array_index (fst kv)) rest = true)
      by (apply existsb_exists; exists (snd p); split; assumption).
    congruence.
Qed.

End OwnEntries.

(** X3.  The role sections are mapped from [Object.entries(agentsByRole)]:
    every group is there once; when no role is an array index the sections
    follow the first occurrences of the roles; roles that are array indices
    come first, by ascending index, before all the others. *)
Theorem role_sections_order (agents : list Agent) :
  existsb inherited_role agents = false ->
  exists sections,
    role_sections agents = Normal sections /\
    Permutation sections (groups_of agents) /\
    (existsb (fun a => is_array_index (agent_role a)) agents = false ->
       sections = groups_of agents) /\
    exists numeric named,
      sections = numeric ++ named /\
      Forall (fun kv => is_array_index (fst kv) = true) numeric /\
      Sorted (fun x y => (key_index (fst x) <= key_index (fst y))%N) numeric /\
      named =
        filter (fun kv => negb (is_array_index (fst kv))) (groups_of agents).
Proof.
  intros Hok.
  exists (own_entries (groups_of agents)).
  split.
  { unfold role_sections.
    rewrite (proj1 (agentsByRole_groups_aux agents Hok)). reflexivity. }
  split; [apply own_entries_perm|].
  split.
  { intros Hnum. apply own_entries_named.
    destruct (existsb (fun kv => is_array_index (fst kv)) (groups_of agents))
      eqn:E; [|reflexivity].
    apply existsb_exists in E. destruct E as [[k g] [Hin Hk]].
    assert (Hrole : In k (map agent_role agents)).
    { apply first_occurrences_roles. rewrite <- groups_of_keys.
      apply in_map_iff. exists (k, g). split; [reflexivity|exact Hin]. }
    apply in_map_iff in Hrole. destruct Hrole as [a [Ha Hin']].
    assert (Hex : existsb (fun a => is_array_index (agent_role a)) agents = true).
    { apply existsb_exists. exists a. split; [exact Hin'|].
      rewrite Ha. exact Hk. }
    congruence. }
  exists (map snd (index_properties (groups_of agents))),
         (filter (fun kv => negb (is_array_index (fst kv))) (groups_of agents)).
  split; [reflexivity|].
  split.
  { apply Forall_map.
    eapply Forall_impl; [|apply index_properties_keys].
    intros p Hp. unfold is_array_index. rewrite Hp. reflexivity. }
  split; [|reflexivity].
  pose proof (index_properties_keys (groups_of agents)) as Hkeys.
  pose proof (index_properties_sorted (groups_of agents)) as Hsorted.
  induction Hsorted as [|p ps Hs IH Hhd]; cbn; [constructor|].
  inversion Hkeys as [|? ? Hp Hps]; subst.
  constructor; [apply IH; exact Hps|].
  destruct ps as [|q qs]; cbn; constructor.
  inversion Hhd; subst. inversion Hps; subst.
  unfold key_index.
  match goal with
  | H1 : array_index (fst (snd p)) = _, H2 : array_index (fst (snd q)) = _ |- _ =>
      rewrite H1, H2
  end.
  assumption.
Qed.

Lemma agentsByRole_groups_witness :
  agentsByRole sample_team =
    Normal [ (lit "developer",
              [sample_agent "ada" "developer"; sample_agent "cy" "developer"]);
             (lit "designer", [sample_agent "bob" "designer"]) ].
Proof.
  destruct (agentsByRole_groups sample_team) as [Hgroups _]; [reflexivity|].
  exact Hgroups.
Defined.

Lemma agentsByRole_inherited_role_witness :
  agentsByRole sample_bad_team = Throw TypeError.
Proof.
  apply (agentsByRole_inherited_role sample_bad_team). reflexivity.
Defined.

Lemma role_sections_order_witness :
  exists sections,
    role_sections sample_team = Normal sections /\
    sections = groups_of sample_team.
Proof.
  destruct (role_sections_order sample_team) as [sections [Hr [_ [Hsame _]]]];
    [reflexivity|].
  exists sections. split; [exact Hr|]. apply Hsame. reflexivity.
Defined.

Section SkillFacts.

Variable toLowerCase : jsstring -> jsstring.

Lemma skill_chips_nth (skills : list skill) :
  forall index i sk,
    nth_error skills i = Some sk ->
    nth_error (skill_chips toLowerCase index skills) i =
      Some (skill_chip toLowerCase (index + i) sk).
Proof.
  induction skills as [|x rest IH]; intros index [|i] sk H; cbn in H;
    try discriminate.
  - inversion H; subst. cbn. rewrite Nat.add_0_r. reflexivity.
  - cbn. rewrite (IH (S index) i sk H). f_equal. f_equal. lia.
Qed.

Lemma skill_chips_length (skills : list skill) :
  forall index, length (skill_chips toLowerCase index skills) = length skills.
Proof.
  induction skills as [|x rest IH]; intros index; cbn; [reflexivity|].
  rewrite IH. reflexivity.
Qed.

(** X4.  [renderSkills] returns [null] for a missing or empty list.
    Otherwise it shows one chip for each of the first three skills, in
    order, and the chip [+ n-3] after them exactly when there are more than
    three skills. *)
Theorem renderSkills_bounds :
  renderSkills toLowerCase None = None /\
  renderSkills toLowerCase (Some []) = None /\
  forall sk rest,
    let skills := sk :: rest in
    exists chips,
      renderSkills toLowerCase (Some skills) =
        Some (el "div" "mt-2"
          [ el "div" "flex flex-wrap gap-1"
              [ RList chips;
                if 3 <? length skills
                then el "div"
                       "text-xs px-2 py-1 rounded-full bg-gray-50 border border-gray-200"
                       [RText (lit "+"); RNum (Z.of_nat (length skills) - 3)]
                else RFalse ] ]) /\
      length chips = Nat.min 3 (length skills) /\
      forall i s,
        i < 3 -> nth_error skills i = Some s ->
        nth_error chips i = Some (skill_chip toLowerCase i s).
Proof.
  split; [reflexivity|]. split; [reflexivity|].
  intros sk rest skills.
  exists (skill_chips toLowerCase 0 (firstn 3 skills)).
  split; [reflexivity|]. split.
  - rewrite skill_chips_length. apply length_firstn.
  - intros i s Hi Hn.
    apply skill_chips_nth.
    rewrite nth_error_firstn.
    destruct (Nat.ltb_spec i 3); [exact Hn|lia].
Qed.

End SkillFacts.

Lemma renderSkills_bounds_witness :
  exists chips,
    renderSkills sample_toLowerCase (Some sample_skills) =
      Some (el "div" "mt-2"
        [ el "div" "flex flex-wrap gap-1"
            [ RList chips;
              el "div"
                "text-xs px-2 py-1 rounded-full bg-gray-50 border border-gray-200"
                [RText (lit "+"); RNum 1] ] ]) /\
    length chips = 3.
Proof.
  destruct (renderSkills_bounds sample_toLowerCase) as [_ [_ H]].
  destruct (H {| skill_name := lit "Rocq"; skill_level := Some (lit "Expert") |}
              (tl sample_skills)) as [chips [Hr [Hlen _]]].
  exists chips. split; [exact Hr|exact Hlen].
Defined.

(** ** Labels, again *)

Lemma toUpperCase_word (c : N) : is_word_char (toUpperCase c) = is_word_char c.
Proof.
  unfold toUpperCase. destruct (is_lower c) eqn:E; [|reflexivity].
  assert (Hup : is_upper (c - 32) = true).
  { unfold is_lower, is_upper in *.
    apply andb_true_iff in E. destruct E as [E1 E2].
    apply N.leb_le in E1. apply N.leb_le in E2.
    apply andb_true_iff. split; apply N.leb_le; lia. }
  unfold is_word_char. rewrite E, Hup.
  destruct (is_lower (c - 32)); reflexivity.
Qed.

Lemma toUpperCase_idem (c : N) : toUpperCase (toUpperCase c) = toUpperCase c.
Proof.
  unfold toUpperCase. destruct (is_lower c) eqn:E; [|rewrite E; reflexivity].
  unfold is_lower in *.
  apply andb_true_iff in E. destruct E as [E1 E2].
  apply N.leb_le in E1. apply N.leb_le in E2.
  assert (H : (97 <=? c - 32)%N = false) by (apply N.leb_gt; lia).
  rewrite H. reflexivity.
Qed.

Lemma toUpperCase_underscore (c : N) :
  N.eqb (toUpperCase c) underscore = N.eqb c underscore.
Proof.
  unfold toUpperCase. destruct (is_lower c) eqn:E; [|reflexivity].
  unfold is_lower, underscore in *.
  apply andb_true_iff in E. destruct E as [E1 E2].
  apply N.leb_le in E1. apply N.leb_le in E2.
  assert (H1 : N.eqb (c - 32) 95 = false) by (apply N.eqb_neq; lia).
  assert (H2 : N.eqb c 95 = false) by (apply N.eqb_neq; lia).
  rewrite H1, H2. reflexivity.
Qed.

Lemma capitalize_from_idem (s : jsstring) :
  forall prev,
    capitalize_from prev (capitalize_from prev s) = capitalize_from prev s.
Proof.
  induction s as [|c rest IH]; intros prev; cbn; [reflexivity|].
  assert (Hw : is_word_char
                 (if (is_word_char c && negb prev)%bool then toUpperCase c else c)
               = is_word_char c).
  { destruct (is_word_char c && negb prev)%bool;
      [apply toUpperCase_word|reflexivity]. }
  rewrite Hw, IH. f_equal.
  destruct (is_word_char c && negb prev)%bool; [|reflexivity].
  apply toUpperCase_idem.
Qed.

Lemma capitalize_from_underscores (s : jsstring) :
  forall prev,
    map (fun u => N.eqb u underscore) (capitalize_from prev s) =
    map (fun u => N.eqb u underscore) s.
Proof.
  induction s as [|c rest IH]; intros prev; cbn; [reflexivity|].
  rewrite IH. f_equal.
  destruct (is_word_char c && negb prev)%bool;
    [apply toUpperCase_underscore|reflexivity].
Qed.

Lemma replace_all_absent (c d : N) (s : jsstring) :
  forallb (fun u => negb (N.eqb u c)) s = true -> replace_all c d s = s.
Proof.
  unfold replace_all.
  induction s as [|u rest IH]; cbn; intros H; [reflexivity|].
  apply andb_true_iff in H. destruct H as [Hu Hrest].
  apply negb_true_iff in Hu. rewrite Hu, (IH Hrest). reflexivity.
Qed.

Lemma replace_all_clears (c d : N) (s : jsstring) :
  N.eqb d c = false ->
  forallb (fun u => negb (N.eqb u c)) (replace_all c d s) = true.
Proof.
  intros Hd. unfold replace_all.
  induction s as [|u rest IH]; cbn; [reflexivity|].
  rewrite IH, andb_true_r.
  destruct (N.eqb u c) eqn:E; [rewrite Hd|rewrite E]; reflexivity.
Qed.

Lemma forallb_map_eq {A : Type} (f : A -> bool) (l l' : list A) :
  map f l = map f l' -> forallb f l = forallb f l'.
Proof.
  revert l'. induction l as [|x rest IH]; intros [|y rest'] H; cbn in *;
    try discriminate; [reflexivity|].
  injection H as Hx Hrest. rewrite Hx, (IH rest' Hrest). reflexivity.
Qed.

(** X5.  Humanizing a key is idempotent and keeps the length: a label that
    is humanized again does not change, and it holds no underscore. *)
Theorem humanize_key_idempotent (key : jsstring) :
  humanize_key (humanize_key key) = humanize_key key /\
  length (humanize_key key) = length key /\
  ~ In underscore (humanize_key key).
Proof.
  assert (Hclean : forallb (fun u => negb (N.eqb u underscore))
                     (humanize_key key) = true).
  { unfold humanize_key, capitalize_words.
    rewrite (forallb_map_eq _ _ (replace_all underscore space key)).
    - apply replace_all_clears. reflexivity.
    - rewrite <- !map_map with (g := negb) (f := fun u => N.eqb u underscore).
      f_equal. apply capitalize_from_underscores. }
  split; [|split].
  - unfold humanize_key at 1.
    rewrite (replace_all_absent _ _ _ Hclean).
    unfold humanize_key, capitalize_words. apply capitalize_from_idem.
  - apply humanize_key_length.
  - intros Hin.
    rewrite forallb_forall in Hclean. specialize (Hclean _ Hin).
    rewrite N.eqb_refl in Hclean. discriminate.
Qed.

(** ** The asset viewer, again *)

Section ViewerMoreFacts.

Variable Number_toString : jsnumber -> jsstring.

Local Abbreviation serialize := (SerializeJSONProperty Number_toString).

Lemma serialize_array_unfold (gap indent : jsstring) (items : list jsvalue) :
  serialize gap indent (VArray items) =
    partial <- serialize_elements (serialize gap (indent ++ gap)) items ;;
    Normal (Some
      match partial with
      | [] => lit "[]"
      | _ =>
          if length gap =? 0 then lit "[" ++ join (lit ",") partial ++ lit "]"
          else
            lit "[" ++ [LF] ++ (indent ++ gap)
              ++ join (lit "," ++ [LF] ++ (indent ++ gap)) partial
              ++ [LF] ++ indent ++ lit "]"
      end).
Proof. reflexivity. Qed.

Lemma serialize_object_unfold (gap indent : jsstring)
  (entries : list (jsstring * jsvalue)) :
  serialize gap indent (VObject entries) =
    partial <- serialize_members (serialize gap (indent ++ gap)) gap entries ;;
    Normal (Some
      match partial with
      | [] => lit "{}"
      | _ =>
          if length gap =? 0 then lit "{" ++ join (lit ",") partial ++ lit "}"
          else
            lit "{" ++ [LF] ++ (indent ++ gap)
              ++ join (lit "," ++ [LF] ++ (indent ++ gap)) partial
              ++ [LF] ++ indent ++ lit "}"
      end).
Proof. reflexivity. Qed.

Lemma serialize_elements_bigint f (items : list jsvalue) :
  Forall (raises_on_bigint f) items ->
  if existsb contains_bigint items
  then serialize_elements f items = Throw TypeError
  else exists r, serialize_elements f items = Normal r.
Proof.
  induction 1 as [|item rest Hitem _ IH]; cbn; [eauto|].
  unfold raises_on_bigint in Hitem.
  destruct (contains_bigint item); cbn [orb].
  - rewrite Hitem. reflexivity.
  - destruct Hitem as [r ->]. cbn [bind].
    destruct (existsb contains_bigint rest).
    + rewrite IH. reflexivity.
    + destruct IH as [others ->]. cbn. eauto.
Qed.

Lemma serialize_members_bigint f gap (entries : list (jsstring * jsvalue)) :
  Forall (fun kv => raises_on_bigint f (snd kv)) entries ->
  if existsb (fun kv => contains_bigint (snd kv)) entries
  then serialize_members f gap entries = Throw TypeError
  else exists r, serialize_members f gap entries = Normal r.
Proof.
  induction 1 as [|[key val] rest Hval _ IH]; cbn; [eauto|].
  unfold raises_on_bigint in Hval. cbn [snd] in Hval.
  destruct (contains_bigint val); cbn [orb].
  - rewrite Hval. reflexivity.
  - destruct Hval as [r ->]. cbn [bind].
    destruct (existsb (fun kv => contains_bigint (snd kv)) rest).
    + rewrite IH. reflexivity.
    + destruct IH as [others ->]. cbn. eauto.
Qed.

Lemma serialize_bigint (value : jsvalue) :
  forall gap indent, raises_on_bigint (serialize gap indent) value.
Proof.
  induction value as [ | | b | n | s | z | d | src | items IH | entries IH ]
    using jsvalue_nested_ind; intros gap indent; unfold raises_on_bigint;
    try (cbn; eauto; fail).
  - destruct n; cbn; eauto.
  - rewrite serialize_array_unfold. cbn [contains_bigint].
    pose proof (serialize_elements_bigint (serialize gap (indent ++ gap)) items)
      as H.
    destruct (existsb contains_bigint items).
    + rewrite H; [reflexivity|].
      eapply Forall_impl; [|exact IH]. intros v Hv. apply Hv.
    + destruct H as [partial ->]; [|cbn; eauto].
      eapply Forall_impl; [|exact IH]. intros v Hv. apply Hv.
  - rewrite serialize_object_unfold. cbn [contains_bigint].
    pose proof (serialize_members_bigint (serialize gap (indent ++ gap)) gap
                  entries) as H.
    destruct (existsb (fun kv => contains_bigint (snd kv)) entries).
    + rewrite H; [reflexivity|].
      eapply Forall_impl; [|exact IH]. intros v Hv. apply Hv.
    + destruct H as [partial ->]; [|cbn; eauto].
      eapply Forall_impl; [|exact IH]. intros v Hv. apply Hv.
Qed.

(** The visual view never raises, and it always puts something on the
    page. *)
Lemma renderAssetContent_total (asset_data : jsvalue) :
  exists r,
    renderAssetContent Number_toString asset_data = Normal r /\ shown r = true.
Proof.
  unfold renderAssetContent.
  destruct (negb (ToBoolean asset_data)
            || negb (jstype_eqb (typeof asset_data) TObject))%bool eqn:E.
  - eexists. split; reflexivity.
  - apply orb_false_iff in E. destruct E as [Eb Et].
    apply negb_false_iff in Eb. apply negb_false_iff in Et.
    destruct asset_data; try discriminate.
    + destruct (render_fields Number_toString (index_entries 0 items))
        as [fields [Hm _]].
      cbn [Object_entries bind]. rewrite Hm. eexists. split; reflexivity.
    + destruct (render_fields Number_toString entries) as [fields [Hm _]].
      cbn [Object_entries bind]. rewrite Hm. eexists. split; reflexivity.
Qed.

Lemma raw_data_panel_bigint (asset_data : jsvalue) :
  if contains_bigint asset_data
  then raw_data_panel Number_toString asset_data = Throw TypeError
  else exists r,
         raw_data_panel Number_toString asset_data = Normal r /\ shown r = true.
Proof.
  unfold raw_data_panel, JSON_stringify.
  pose proof (serialize_bigint asset_data (repeat space (Nat.min 2 10)) []) as H.
  unfold raises_on_bigint in H.
  destruct (contains_bigint asset_data).
  - rewrite H. reflexivity.
  - destruct H as [json ->]. eexists. split; reflexivity.
Qed.


(** X7.  The navigation and the content area agree: for every active view,
    the button of that view alone carries the active classes and the panel
    of that view alone is on the page.  A click on a tab makes its view the
    active one, and a second click on it changes nothing. *)
Theorem SmartAssetViewer_one_panel (activeView : view) (asset_data : jsvalue)
  (r : rnode) :
  SmartAssetViewer_content Number_toString activeView asset_data = Normal r ->
  (exists v u d,
     r = el "div" "p-6 overflow-y-auto max-h-[60vh]" [v; u; d] /\
     shown v = view_eqb activeView visual /\
     shown u = view_eqb activeView usage /\
     shown d = view_eqb activeView data) /\
  map (fun button =>
         String.eqb (className_of button)
           ("flex-1 px-6 py-4 text-center border-b-2 transition "
              ++ active_tab_classes))
    (tab_navigation activeView)
  = map (fun tab => view_eqb activeView (view_tab_key tab)) view_tabs /\
  (forall position tab,
     nth_error view_tabs position = Some tab ->
     SmartAssetViewer_click activeView position = view_tab_key tab /\
     SmartAssetViewer_click (SmartAssetViewer_click activeView position) position
     = SmartAssetViewer_click activeView position).
Proof.
  intros Hr.
  split; [|split].
  - pose proof (raw_data_panel_bigint asset_data) as Hraw.
    destruct (renderAssetContent_total asset_data) as [v [Hv Hshown]].
    unfold SmartAssetViewer_content in Hr.
    destruct activeView; cbn [view_eqb bind] in Hr.
    + rewrite Hv in Hr. cbn [bind] in Hr. injection Hr as <-.
      exists v, RFalse, RFalse. repeat split. exact Hshown.
    + destruct (contains_bigint asset_data).
      * rewrite Hraw in Hr. discriminate.
      * destruct Hraw as [d [Hd Hshown']]. rewrite Hd in Hr.
        cbn [bind] in Hr. injection Hr as <-.
        exists RFalse, RFalse, d. repeat split. exact Hshown'.
    + injection Hr as <-.
      exists RFalse, renderUsageInstructions, RFalse. repeat split.
  - destruct activeView; reflexivity.
  - intros position tab Hn.
    unfold SmartAssetViewer_click. rewrite !Hn.
    split; reflexivity.
Qed.

End ViewerMoreFacts.









(** ** The knowledge panel, again *)

Lemma panel_step_tabbed (knowledgeData : knowledge_data) (st : panel_state)
  (ev : panel_event) :
  tabbed (activeSection st) = true ->
  tabbed (activeSection (panel_step knowledgeData st ev)) = true.
Proof.
  intros H. destruct ev as [|position|]; cbn; try exact H.
  destruct (managementMode st); [exact H|].
  cbn.
  destruct position as [|[|[|[|position]]]]; cbn; try reflexivity; try exact H.
  destruct position; exact H.
Qed.

Lemma panel_run_tabbed (knowledgeData : knowledge_data)
  (events : list panel_event) :
  forall st,
    tabbed (activeSection st) = true ->
    tabbed (activeSection (panel_run knowledgeData st events)) = true.
Proof.
  induction events as [|ev rest IH]; intros st H; [exact H|].
  unfold panel_run. cbn [fold_left].
  apply IH, panel_step_tabbed, H.
Qed.

(** X9.  Whatever the user clicks, starting from the first render, the
    active section is never [manage]: it is one of the four sections that
    have a tab.  So whenever the tabs are on screen, exactly one of them is
    active and exactly one section is shown under them, the one of that
    tab; a click on a tab selects its section, and a second click on it
    changes nothing. *)
Theorem KnowledgeInsightsArtifact_one_section (knowledgeData : knowledge_data)
  (events : list panel_event) :
  let st := panel_run knowledgeData initial_panel_state events in
  activeSection st <> Manage /\
  (managementMode st = false ->
   exists tabs content,
     body (KnowledgeInsightsArtifact knowledgeData st) = KnowledgeView tabs content /\
     length (filter tab_active tabs) = 1 /\
     content =
       map (fun tab => if tab_active tab
                       then match tab_onClick tab with
                            | setActiveSection s => Some s
                            | setManagementMode _ => None
                            end
                       else None) tabs /\
     forall position tab,
       nth_error tabs position = Some tab ->
       let st' := panel_step knowledgeData st (ClickTab position) in
       tab_onClick tab = setActiveSection (activeSection st') /\
       managementMode st' = false /\
       panel_step knowledgeData st' (ClickTab position) = st').
Proof.
  intros st.
  assert (Htab : tabbed (activeSection st) = true)
    by (apply panel_run_tabbed; reflexivity).
  split.
  { intros H. rewrite H in Htab. discriminate. }
  intros Hmode.
  destruct st as [active mode]. cbn in Hmode, Htab. subst mode.
  eexists. eexists.
  split; [reflexivity|].
  split; [destruct active; try discriminate; reflexivity|].
  split; [destruct active; try discriminate; reflexivity|].
  intros position tab Hn.
  destruct position as [|[|[|[|position]]]]; cbn in Hn;
    try (injection Hn as <-; cbn; repeat split; reflexivity).
  destruct position; discriminate.
Qed.


Lemma replace_first_length (c d : N) (s : jsstring) :
  length (replace_first c d s) = length s.
Proof.
  induction s as [|u rest IH]; cbn; [reflexivity|].
  destruct (N.eqb u c); cbn; [reflexivity|]. rewrite IH. reflexivity.
Qed.

Lemma replace_first_absent (c d : N) (s : jsstring) :
  ~ In c s -> replace_first c d s = s.
Proof.
  induction s as [|u rest IH]; cbn; intros H; [reflexivity|].
  destruct (N.eqb_spec u c) as [->|Hne]; [tauto|].
  rewrite IH by tauto. reflexivity.
Qed.

Lemma replace_first_split (c d : N) (pre post : jsstring) :
  ~ In c pre -> replace_first c d (pre ++ c :: post) = pre ++ d :: post.
Proof.
  induction pre as [|u rest IH]; cbn; intros H.
  - rewrite N.eqb_refl. reflexivity.
  - destruct (N.eqb_spec u c) as [->|Hne]; [tauto|].
    rewrite IH by tauto. reflexivity.
Qed.

(** X11.  The type line of an insight card turns only the first underscore
    of the type into a space: what follows it is kept as it is, later
    underscores included.  A type without underscore is shown unchanged,
    and a missing or empty type is shown as [Insight]. *)
Theorem type_label_first_underscore :
  type_label None = lit "Insight" /\
  type_label (Some []) = lit "Insight" /\
  (forall pre post,
     ~ In underscore pre ->
     type_label (Some (pre ++ underscore :: post)) = pre ++ space :: post) /\
  (forall t, t <> [] -> ~ In underscore t -> type_label (Some t) = t).
Proof.
  split; [reflexivity|]. split; [reflexivity|]. split.
  - intros pre post Hpre. unfold type_label.
    rewrite (replace_first_split underscore space pre post Hpre).
    rewrite length_app. cbn [length].
    replace (length pre + S (length post)) with (S (length pre + length post))
      by lia.
    reflexivity.
  - intros t Hne Hno. unfold type_label.
    rewrite (replace_first_absent underscore space t Hno).
    destruct t; [contradiction|reflexivity].
Qed.

Lemma type_label_first_underscore_witness :
  type_label (Some (lit "key_success_pattern")) = lit "key success_pattern" /\
  type_label (Some (lit "discovery")) = lit "discovery".
Proof.
  destruct type_label_first_underscore as [_ [_ [Hsplit Hkeep]]].
  split.
  - apply (Hsplit (lit "key") (lit "success_pattern")).
    cbn. intros [H|[H|[H|[]]]]; discriminate.
  - apply Hkeep; [discriminate|].
    cbn. intuition discriminate.
Defined.

Section CardFacts.

Variable percent_text : jsnumber -> jsstring.

(** X12.  The confidence badge of an insight card is guarded by the value
    itself, so a confidence of zero is not hidden: the card shows a bare
    [0] in place of the badge, and [NaN] shows as [NaN].  A missing
    confidence shows nothing, and every other number shows the rounded
    percentage in the pairing of its tier. *)
Theorem confidence_badge_falsy :
  (forall q, Qeq q 0 ->
     text_of (confidence_badge percent_text (Some (Finite q))) = lit "0") /\
  text_of (confidence_badge percent_text (Some NaN)) = lit "NaN" /\
  confidence_badge percent_text None = RUndefined /\
  (forall c,
     ToBoolean (VNumber c) = true ->
     confidence_badge percent_text (Some c) =
       el "span"
         ("text-xs px-2 py-1 rounded-full "
            ++ class_of_units (InsightSection_getConfidenceColor c))
         [RText (percent_text c); RText (lit "% confidence")]).
Proof.
  split; [|split; [|split]].
  - intros q Hq. unfold confidence_badge. cbn [ToBoolean number_is_zero].
    apply Qeq_bool_iff in Hq. rewrite Hq. reflexivity.
  - reflexivity.
  - reflexivity.
  - intros c Hc. unfold confidence_badge. rewrite Hc. reflexivity.
Qed.

End CardFacts.

Lemma confidence_badge_falsy_witness :
  text_of (confidence_badge sample_percent_text (Some (Finite (0 # 5)))) = lit "0" /\
  text_of (confidence_badge sample_percent_text (Some (Finite (17 # 20))))
  = lit "85% confidence".
Proof.
  destruct (confidence_badge_falsy sample_percent_text) as [Hzero [_ [_ Hbadge]]].
  split.
  - apply Hzero. reflexivity.
  - rewrite (Hbadge (Finite (17 # 20))); reflexivity.
Defined.

Lemma summary_items_text (tag className : string) (items : list jsstring) :
  forall index,
    flat_map text_of (summary_items tag className index items) = concat items.
Proof.
  induction items as [|item rest IH]; intros index; cbn; [reflexivity|].
  rewrite IH, app_nil_r. reflexivity.
Qed.

Lemma summary_items_length (tag className : string) (items : list jsstring) :
  forall index, length (summary_items tag className index items) = length items.
Proof.
  induction items as [|item rest IH]; intros index; cbn; [reflexivity|].
  rewrite IH. reflexivity.
Qed.

Lemma summary_block_text (heading_icon : jsstring)
  (heading list_class item_tag item_class placeholder : string)
  (field : option (list jsstring)) :
  text_of (summary_block heading_icon heading list_class item_tag item_class
             placeholder field) =
    heading_icon ++ lit heading ++ block_text placeholder field.
Proof.
  unfold summary_block. cbn [text_of flat_map el].
  rewrite !app_nil_r. rewrite <- app_assoc. f_equal. f_equal.
  destruct field as [[|item rest]|].
  - cbn [block_text text_of flat_map el]. apply app_nil_r.
  - cbn [block_text text_of flat_map el].
    rewrite (summary_items_text item_tag item_class (item :: rest) 0).
    rewrite !app_nil_r. reflexivity.
  - cbn [block_text text_of flat_map el]. apply app_nil_r.
Qed.

(** X13.  [SummaryView] never fails on partial data.  Without a summary it
    shows its placeholder.  With one, each of the four blocks shows under
    its heading every item of its list, in order and without a cap, or its
    own placeholder line when the list is missing or empty. *)
Theorem SummaryView_blocks :
  text_of (SummaryView None) =
    [55357; 56522]%N ++ lit "Knowledge Summary"
      ++ lit "Summary data will appear as more insights are collected." /\
  forall s,
    text_of (SummaryView (Some s)) =
      lit "Knowledge Summary"
        ++ ([55357; 56589]%N ++ lit "Recent Discoveries"
              ++ block_text "No recent discoveries" (recent_discoveries s))
        ++ ([55357; 56999]%N ++ lit "Key Constraints"
              ++ block_text "No constraints identified" (key_constraints s))
        ++ ([9989%N] ++ lit "Success Patterns"
              ++ block_text "No success patterns identified" (success_patterns s))
        ++ ([55356; 57335; 65039]%N ++ lit "Top Tags"
              ++ block_text "No tags available" (top_tags s)).
Proof.
  split; [reflexivity|].
  intros s. unfold SummaryView.
  cbn [text_of flat_map el].
  rewrite !summary_block_text, !app_nil_r. reflexivity.
Qed.



Lemma SmartAssetViewer_one_panel_witness :
  exists v u d,
    el "div" "p-6 overflow-y-auto max-h-[60vh]" [RFalse; renderUsageInstructions; RFalse]
    = el "div" "p-6 overflow-y-auto max-h-[60vh]" [v; u; d] /\
    shown v = false /\ shown u = true /\ shown d = false.
Proof.
  destruct (SmartAssetViewer_one_panel sample_Number_toString usage
              executive_summary_data
              (el "div" "p-6 overflow-y-auto max-h-[60vh]"
                 [RFalse; renderUsageInstructions; RFalse]))
    as [Hpanels _]; [reflexivity|].
  exact Hpanels.
Defined.



(** X15.  [formatDate] never raises and its handler never runs, whatever
    the engine reads in the string: the result is the text [Invalid Date]
    when the string is not read as a date or the time read is beyond the
    range of a date, and the formatted time otherwise. *)
Theorem formatDate_handler_unreachable (Date_parse : jsstring -> option Z)
  (format_en_US : Z -> jsstring) (dateString : jsstring) :
  exists text,
    formatDate Date_parse format_en_US dateString = Normal text /\
    (Date_parse dateString = None -> text = lit "Invalid Date") /\
    (forall t,
       Date_parse dateString = Some t ->
       (8640000000000000 < Z.abs t)%Z -> text = lit "Invalid Date") /\
    (forall t,
       Date_parse dateString = Some t ->
       (Z.abs t <= 8640000000000000)%Z -> text = format_en_US t).
Proof.
  rewrite formatDate_value. eexists. split; [reflexivity|].
  unfold Date_new, TimeClip.
  split; [|split].
  - intros ->. reflexivity.
  - intros t -> Hbig.
    destruct (Z.leb_spec (Z.abs t) 8640000000000000); [lia|reflexivity].
  - intros t -> Hok.
    destruct (Z.leb_spec (Z.abs t) 8640000000000000); [reflexivity|lia].
Qed.

Lemma formatDate_handler_unreachable_witness :
  exists text,
    formatDate sample_Date_parse sample_format_en_US (lit "1970-01-02")
    = Normal text /\
    text = lit "86400000".
Proof.
  destruct (formatDate_handler_unreachable sample_Date_parse sample_format_en_US
              (lit "1970-01-02")) as [text [Hr [_ [_ Hok]]]].
  exists text. split; [exact Hr|].
  apply (Hok 86400000%Z); [reflexivity|]. cbn. lia.
Defined.

